(** * aws_uploader: a shallow embedding of [uploader.py]

    The program scans a directory for backup files, uploads each one to
    AWS (Glacier vault or S3 bucket), records Glacier archive ids in a
    history file and removes the local copies.

    The embedding follows the Python source function by function.  The
    operating system (directory tree, open files), the logging module and
    the two boto3 clients are the program's environment; they are modelled
    as an explicit [world] threaded through a state-and-exception monad. *)

From stdpp Require Import gmap strings list fin_maps pretty.
From Stdlib Require Import Ascii String ZArith Lia.

Set Warnings "-register-all,-clear-no-such-hyp".
Set Default Proof Using "Type".

(** ** Python strings

    A [str] is modelled as a [string]: a sequence of code points below 256. *)

Module Str.

Definition slash : ascii := "/"%char.

(** [s.startswith(pre)] *)
Fixpoint startswith (s pre : string) {struct pre} : bool :=
  match pre with
  | EmptyString => true
  | String a pre' =>
      match s with
      | EmptyString => false
      | String b s' => if Ascii.eqb a b then startswith s' pre' else false
      end
  end.

(** [s[n:]] for [0 <= n] *)
Fixpoint drop (n : nat) (s : string) : string :=
  match n with
  | O => s
  | S n' => match s with
            | EmptyString => EmptyString
            | String _ s' => drop n' s'
            end
  end.

(** [s.endswith(suf)]: the last [len(suf)] characters of [s] are [suf]. *)
Definition endswith (s suf : string) : bool :=
  (String.length suf <=? String.length s)
  && String.eqb (drop (String.length s - String.length suf) s) suf.

(** [s.rfind(c)]: the highest index of [c] in [s], or -1. *)
Fixpoint rfind (c : ascii) (s : string) : Z :=
  match s with
  | EmptyString => (-1)%Z
  | String a s' =>
      let r := rfind c s' in
      if (0 <=? r)%Z then (r + 1)%Z else if Ascii.eqb a c then 0%Z else (-1)%Z
  end.

(** [c in s] *)
Fixpoint contains (c : ascii) (s : string) : bool :=
  match s with
  | EmptyString => false
  | String a s' => Ascii.eqb a c || contains c s'
  end.

(** Truth value of a [str]: non-empty. *)
Definition truthy (s : string) : bool :=
  match s with EmptyString => false | _ => true end.

(** [all(f(c) for c in s)] *)
Fixpoint all (f : ascii -> bool) (s : string) : bool :=
  match s with
  | EmptyString => true
  | String a s' => f a && all f s'
  end.

End Str.

(** ** [os.path] (posixpath) *)

Module Path.

(** [os.path.join(a, b)]:
<<
    if b.startswith('/'):              path = b
    elif not path or path.endswith('/'): path += b
    else:                               path += '/' + b
>> *)
Definition join (a b : string) : string :=
  if Str.startswith b "/" then b
  else if negb (Str.truthy a) || Str.endswith a "/" then a +:+ b
  else a +:+ "/" +:+ b.

(** [os.path.basename(p)]: [i = p.rfind('/') + 1; return p[i:]] *)
Definition basename (p : string) : string :=
  let i := (Str.rfind Str.slash p + 1)%Z in
  Str.drop (Z.to_nat i) p.

(** The names of a path, in order: what stands between its slashes, the
    empty names of repeated, leading and trailing slashes left out.  The
    names [.] and [..] are kept; the kernel gives them their meaning.
    [acc] is the name being read. *)
Definition flush (acc : string) : list string :=
  if decide (acc = EmptyString) then [] else [acc].

Fixpoint components_go (acc : string) (s : string) : list string :=
  match s with
  | EmptyString => flush acc
  | String c s' =>
      if Ascii.eqb c Str.slash then flush acc ++ components_go EmptyString s'
      else components_go (acc +:+ String c EmptyString) s'
  end.

Definition components (p : string) : list string :=
  components_go EmptyString p.

(** A name a directory entry can have: not empty, no slash, and neither
    of the two reserved names. *)
Definition valid_name (n : string) : Prop :=
  n <> EmptyString /\ Str.contains Str.slash n = false
  /\ n <> "." /\ n <> "..".

End Path.

#[global] Instance valid_name_dec (n : string) : Decision (Path.valid_name n).
Proof. unfold Path.valid_name. apply _. Defined.

(** ** Python values and [json.dump] *)

(** The values a Glacier response holds under its keys, as far as the
    program looks at them. *)
Inductive pyval :=
| PNone
| PBool (b : bool)
| PInt (z : Z)
| PStr (s : string).

(** The response of [upload_archive]: a [dict] with string keys. *)
Abbreviation response := (gmap string pyval).

Module Json.

Definition quote : string := String (ascii_of_nat 34) EmptyString.

Definition hex_digit (n : nat) : ascii :=
  match String.get n "0123456789abcdef" with
  | Some c => c
  | None => "0"%char
  end.

(** [json.encoder.py_encode_basestring_ascii], one character:
    backslash and quote are escaped, the named control characters have
    their short form, every other character outside [' '..'~'] is
    written as a [\uXXXX] escape. *)
Definition escape_char (c : ascii) : string :=
  let n := nat_of_ascii c in
  if (n =? 34)%nat then "\" +:+ quote
  else if (n =? 92)%nat then "\\"
  else if (n =? 10)%nat then "\n"
  else if (n =? 13)%nat then "\r"
  else if (n =? 9)%nat then "\t"
  else if (n =? 12)%nat then "\f"
  else if (n =? 8)%nat then "\b"
  else if ((32 <=? n) && (n <=? 126))%nat then String c EmptyString
  else "\u00" +:+ String (hex_digit (n / 16)) (String (hex_digit (n mod 16)) EmptyString).

Fixpoint escape (s : string) : string :=
  match s with
  | EmptyString => EmptyString
  | String c s' => escape_char c +:+ escape s'
  end.

(** The text [json.dump(v, fp)] writes to [fp]. *)
Definition dumps (v : pyval) : string :=
  match v with
  | PNone => "null"
  | PBool true => "true"
  | PBool false => "false"
  | PInt z => pretty z
  | PStr s => quote +:+ escape s +:+ quote
  end.

End Json.

(** [data.get(key)]: the value under [key], or [None]. *)
Definition dict_get (data : response) (key : string) : pyval :=
  match data !! key with
  | Some v => v
  | None => PNone
  end.

(** Truth value of a [dict]: non-empty. *)
Definition dict_truthy (data : response) : bool :=
  negb (bool_decide (data = ∅)).

(** ** Exceptions *)

Inductive exn :=
| ClientError (msg : string)          (* botocore.exceptions.ClientError *)
| FileNotFoundError (path : string)
| NotADirectoryError (path : string)
| IsADirectoryError (path : string)
| UnboundLocalError (var : string)
| SystemExit (code : Z)
| OtherError (name : string).         (* any other exception class *)

Inductive result (A : Type) :=
| Ok (a : A)
| Raise (e : exn).
Arguments Ok {A} a.
Arguments Raise {A} e.

(** ** The local file system

    A tree of directories and regular files (no symbolic links). *)

Inductive node :=
| File (data : list Byte.byte)
| Dir (entries : gmap string node).

Inductive errno := ENOENT | ENOTDIR | EISDIR.

#[global] Instance errno_eq_dec : EqDecision errno.
Proof. solve_decision. Defined.

Module Fs.

(** Path resolution from a node along a list of names. *)
Fixpoint walk (n : node) (cs : list string) : errno + node :=
  match cs with
  | [] => inr n
  | c :: cs' =>
      match n with
      | File _ => inl ENOTDIR
      | Dir es =>
          match es !! c with
          | None => inl ENOENT
          | Some m => walk m cs'
          end
      end
  end.

(** Replace, create or remove the entry at [cs], leaving the tree as it
    is when the parent of [cs] is not a directory of the tree. *)
Fixpoint modify (f : option node -> option node) (cs : list string) (n : node) : node :=
  match cs with
  | [] => n
  | c :: cs' =>
      match n with
      | File _ => n
      | Dir es =>
          match cs' with
          | [] => Dir (partial_alter f c es)
          | _ :: _ => Dir (alter (modify f cs') c es)
          end
      end
  end.

Definition entries_of (n : node) : gmap string node :=
  match n with
  | Dir es => es
  | File _ => ∅
  end.

(** [modify] on the root directory, given by its entries. *)
Definition update (f : option node -> option node) (cs : list string)
    (es : gmap string node) : gmap string node :=
  entries_of (modify f cs (Dir es)).

(** What a resolution found, up to the contents of directories: a
    regular file with its bytes, a directory, or nothing. *)
Inductive shape :=
| IsFile (data : list Byte.byte)
| IsDir
| Nothing.

Definition shape_of (r : errno + node) : shape :=
  match r with
  | inr (File d) => IsFile d
  | inr (Dir _) => IsDir
  | inl _ => Nothing
  end.

Definition is_file (r : errno + node) : bool :=
  match r with
  | inr (File _) => true
  | _ => false
  end.

(** The names in a directory, in the order the listing gives them. *)
Definition names (es : gmap string node) : list string :=
  (map_to_list es).*1.

(** Two trees have their directories at the same places. *)
Definition same_dirs (n n' : node) : Prop :=
  forall cs, shape_of (walk n cs) = IsDir <-> shape_of (walk n' cs) = IsDir.

End Fs.

(** ** The world the program runs in *)

Inductive level := DEBUG | INFO | WARNING | ERROR.

(** A file object returned by [open(path, 'rb')]. *)
Record file_object := {
  fo_name : string;
  fo_data : list Byte.byte;
  fo_closed : bool
}.

(** The [src_data] argument of [upload_to_glacier]: [bytes], a [str] naming
    a file, or a value of another type. *)
Inductive src :=
| SBytes (b : list Byte.byte)
| SStr (s : string)
| SOther (type_name : string).

(** [boto3.client('glacier', ...).upload_archive(...)] with its arguments. *)
Record glacier_request := {
  g_access : string;
  g_secret : string;
  vaultName : string;
  archiveDescription : src;
  body : list Byte.byte
}.

(** [boto3.client('s3', ...).upload_file(Filename, Bucket, Key)]. *)
Record s3_request := {
  s3_access : string;
  s3_secret : string;
  Filename : string;
  Bucket : string;
  Key : string
}.

(** A call made to AWS, with what came back. *)
Inductive call :=
| GlacierCall (req : glacier_request) (out : result response)
| S3Call (req : s3_request) (out : result unit).

(** [argparse.Namespace] as [parse_args] fills it. *)
Record Namespace := {
  access_key : string;
  secret_key : string;
  vault_name : string;
  bucket_name : string;
  backup_dir : string;
  history_file : string;
  backup_ext : string;
  mode : string
}.

Record world := {
  root : gmap string node;           (* the entries of the root directory *)
  cwd : list string;                 (* the working directory, from the root *)
  handles : list file_object;        (* every file object opened so far *)
  records : list (level * string);   (* what [logging] has emitted *)
  remote : list call;                (* the calls made to AWS *)
  argv : Namespace                   (* the command line, defaults filled in *)
}.

Definition set_root (r : gmap string node) (w : world) : world :=
  {| root := r; cwd := cwd w; handles := handles w;
     records := records w; remote := remote w; argv := argv w |}.

Definition set_handles (hs : list file_object) (w : world) : world :=
  {| root := root w; cwd := cwd w; handles := hs;
     records := records w; remote := remote w; argv := argv w |}.

Definition add_records (rs : list (level * string)) (w : world) : world :=
  {| root := root w; cwd := cwd w; handles := handles w;
     records := records w ++ rs; remote := remote w; argv := argv w |}.

Definition add_call (c : call) (w : world) : world :=
  {| root := root w; cwd := cwd w; handles := handles w;
     records := records w; remote := remote w ++ [c]; argv := argv w |}.

(** What the program cannot decide: how AWS answers a call, and the order
    in which a [set] is iterated.  An answer may depend on everything that
    happened before, which the calls made so far stand for; it is the
    outcome of the whole [try] body, the construction of the client
    included. *)
Record environment := {
  upload_archive : list call -> glacier_request -> result response;
  upload_file : list call -> s3_request -> result unit;
  set_order : gset string -> list string;
  set_order_perm : forall X : gset string, set_order X ≡ₚ elements X
}.

(** The outcomes of a call that the program provides for: it returns, or
    the service reports an error ([ClientError]). *)
Definition service_outcome {A : Type} (r : result A) : Prop :=
  match r with
  | Ok _ => True
  | Raise (ClientError _) => True
  | Raise _ => False
  end.

(** ** State and exceptions *)

Definition M (A : Type) : Type := world -> result A * world.

#[global] Instance M_ret : MRet M := fun A a w => (Ok a, w).

#[global] Instance M_bind : MBind M := fun A B f m w =>
  match m w with
  | (Ok a, w') => f a w'
  | (Raise e, w') => (Raise e, w')
  end.

Definition raise {A : Type} (e : exn) : M A := fun w => (Raise e, w).

(** [try: body / except E as err: handler err], [catches] telling the
    exceptions of class [E]. *)
Definition try_except {A : Type} (body : M A) (catches : exn -> bool)
    (handler : exn -> M A) : M A := fun w =>
  match body w with
  | (Ok a, w') => (Ok a, w')
  | (Raise e, w') => if catches e then handler e w' else (Raise e, w')
  end.

(** [for x in xs: body x] *)
Fixpoint for_each {A : Type} (xs : list A) (body : A -> M unit) : M unit :=
  match xs with
  | [] => mret tt
  | x :: xs' => body x;; for_each xs' body
  end.

(** A loop that updates a local variable [acc]. *)
Fixpoint for_fold {A S : Type} (xs : list A) (acc : S) (body : S -> A -> M S) : M S :=
  match xs with
  | [] => mret acc
  | x :: xs' => acc' ← body acc x; for_fold xs' acc' body
  end.

Definition is_ClientError (e : exn) : bool :=
  match e with ClientError _ => true | _ => false end.

Definition is_FileNotFoundError (e : exn) : bool :=
  match e with FileNotFoundError _ => true | _ => false end.

(** [str(err)]; the program formats [ClientError] only (lines 89, 118). *)
Definition exn_str (e : exn) : string :=
  match e with
  | ClientError msg => msg
  | FileNotFoundError p => "[Errno 2] No such file or directory: '" +:+ p +:+ "'"
  | NotADirectoryError p => "[Errno 20] Not a directory: '" +:+ p +:+ "'"
  | IsADirectoryError p => "[Errno 21] Is a directory: '" +:+ p +:+ "'"
  | UnboundLocalError v => v
  | SystemExit c => pretty c
  | OtherError n => n
  end.

(** ** [logging] *)

Definition log (lvl : level) (msg : string) : M unit := fun w =>
  (Ok tt, add_records [(lvl, msg)] w).

(** ** [os] and [open]

    Path resolution as the kernel does it on a tree without symbolic
    links and without permissions: a path starts at the root when it
    begins with a slash and at the working directory otherwise, and its
    names are taken one after the other.  Each name, [.] and [..]
    included, is looked up in a directory: when the place reached so far
    is a regular file the error is [ENOTDIR], when nothing is there it is
    [ENOENT].  A trailing slash asks for a directory.  The empty path
    names nothing. *)

Module Os.

(** One name taken from the directory at [cur]: [.] stays, [..] goes to
    the parent (the root is its own parent), another name goes to the
    entry of that name. *)
Definition step (cur : list string) (c : string) : list string :=
  if decide (c = ".") then cur
  else if decide (c = "..") then removelast cur
  else cur ++ [c].

(** The names [cs] taken from the place [cur] of the tree [r]. *)
Fixpoint descend (r : node) (cur : list string) (cs : list string) : errno + list string :=
  match cs with
  | [] => inr cur
  | c :: cs' =>
      match Fs.walk r cur with
      | inr (Dir _) => descend r (step cur c) cs'
      | inr (File _) => inl ENOTDIR
      | inl e => inl e
      end
  end.

(** The place the names of [p] lead to, from the root: every name before
    the last one has been found to be a directory; the place itself may
    hold a file, a directory or nothing. *)
Definition follow (r : gmap string node) (wd : list string) (p : string)
    : errno + list string :=
  if negb (Str.truthy p) then inl ENOENT
  else descend (Dir r) (if Str.startswith p "/" then [] else wd) (Path.components p).

(** The place [p] stands for when something that exists is asked for
    ([stat], [open] for reading, [unlink], [listdir]): after a trailing
    slash the place must hold a directory. *)
Definition resolve (r : gmap string node) (wd : list string) (p : string)
    : errno + list string :=
  match follow r wd p with
  | inl e => inl e
  | inr cs =>
      if Str.endswith p "/" then
        match Fs.walk (Dir r) cs with
        | inr (Dir _) => inr cs
        | inr (File _) => inl ENOTDIR
        | inl e => inl e
        end
      else inr cs
  end.

Definition lookup (w : world) (p : string) : errno + node :=
  match resolve (root w) (cwd w) p with
  | inl e => inl e
  | inr cs => Fs.walk (Dir (root w)) cs
  end.

Definition oserror (e : errno) (p : string) : exn :=
  match e with
  | ENOENT => FileNotFoundError p
  | ENOTDIR => NotADirectoryError p
  | EISDIR => IsADirectoryError p
  end.

(** [os.listdir(p)] *)
Definition listdir (p : string) : M (list string) := fun w =>
  match lookup w p with
  | inr (Dir es) => (Ok (Fs.names es), w)
  | inr (File _) => (Raise (NotADirectoryError p), w)
  | inl e => (Raise (oserror e p), w)
  end.

(** [os.path.isfile(p)]: false on every error. *)
Definition isfile (p : string) : M bool := fun w =>
  (Ok (Fs.is_file (lookup w p)), w).

(** [os.remove(p)] *)
Definition remove (p : string) : M unit := fun w =>
  match resolve (root w) (cwd w) p with
  | inl e => (Raise (oserror e p), w)
  | inr cs =>
      match Fs.walk (Dir (root w)) cs with
      | inr (File _) => (Ok tt, set_root (Fs.update (fun _ => None) cs (root w)) w)
      | inr (Dir _) => (Raise (IsADirectoryError p), w)
      | inl e => (Raise (oserror e p), w)
      end
  end.

(** [open(p, 'rb')]: the index of the new file object among [handles]. *)
Definition open_rb (p : string) : M nat := fun w =>
  match lookup w p with
  | inr (File d) =>
      (Ok (List.length (handles w)),
       set_handles (handles w ++ [{| fo_name := p; fo_data := d; fo_closed := false |}]) w)
  | inr (Dir _) => (Raise (IsADirectoryError p), w)
  | inl e => (Raise (oserror e p), w)
  end.

Definition close_object (fo : file_object) : file_object :=
  {| fo_name := fo_name fo; fo_data := fo_data fo; fo_closed := true |}.

(** [f.close()] *)
Definition close (h : nat) : M unit := fun w =>
  (Ok tt, set_handles (alter close_object h (handles w)) w).

(** [with open(p, 'a') as f: f.write(text)].  The file is opened for
    writing and created when it is not there: once the names of [p] have
    been followed, a trailing slash is refused with [EISDIR] whatever is
    at the place, and so is a directory; a regular file gets the text at
    its end; where nothing is (in a directory that exists, the names
    having been followed), a file holding the text is made. *)
Definition append_text (p : string) (text : string) : M unit := fun w =>
  let bytes := String.list_byte_of_string text in
  match follow (root w) (cwd w) p with
  | inl e => (Raise (oserror e p), w)
  | inr cs =>
      if Str.endswith p "/" then (Raise (IsADirectoryError p), w)
      else
        match Fs.walk (Dir (root w)) cs with
        | inr (File d) =>
            (Ok tt, set_root (Fs.update (fun _ => Some (File (d ++ bytes))) cs (root w)) w)
        | inr (Dir _) => (Raise (IsADirectoryError p), w)
        | inl _ =>
            (Ok tt, set_root (Fs.update (fun _ => Some (File bytes)) cs (root w)) w)
        end
  end.

(** The bytes of the regular file at [p]; none when there is no such
    file. *)
Definition text (w : world) (p : string) : list Byte.byte :=
  match lookup w p with
  | inr (File d) => d
  | _ => []
  end.

(** [open(p, 'a')] succeeds: [p] has no trailing slash, its names can be
    followed, and the place they lead to holds no directory. *)
Definition appendable (w : world) (p : string) : Prop :=
  Str.endswith p "/" = false
  /\ match follow (root w) (cwd w) p with
     | inr cs => Fs.shape_of (Fs.walk (Dir (root w)) cs) <> Fs.IsDir
     | inl _ => False
     end.

End Os.

(** ** Formatting values in f-strings *)

Module Fmt.

Definition squote : ascii := "'"%char.
Definition dquote : ascii := ascii_of_nat 34.
Definition backslash : ascii := "\"%char.

Definition has_byte (c : ascii) (b : list Byte.byte) : bool :=
  existsb (fun x => Ascii.eqb (ascii_of_byte x) c) b.

(** [repr] of one byte inside a bytes literal quoted with [q]. *)
Definition repr_byte (q : ascii) (x : Byte.byte) : string :=
  let c := ascii_of_byte x in
  let n := nat_of_ascii c in
  if Ascii.eqb c q || Ascii.eqb c backslash then String backslash (String c EmptyString)
  else if (n =? 9)%nat then "\t"
  else if (n =? 10)%nat then "\n"
  else if (n =? 13)%nat then "\r"
  else if ((n <? 32) || (127 <=? n))%nat then
    "\x" +:+ String (Json.hex_digit (n / 16)) (String (Json.hex_digit (n mod 16)) EmptyString)
  else String c EmptyString.

(** [repr(b)] for [bytes]: single quotes, unless the value holds a single
    quote and no double quote. *)
Definition bytes_repr (b : list Byte.byte) : string :=
  let q := if has_byte squote b && negb (has_byte dquote b) then dquote else squote in
  "b" +:+ String q (foldr (fun x acc => repr_byte q x +:+ acc) (String q EmptyString) b).

(** [f'{src_data}'] *)
Definition src_str (s : src) : string :=
  match s with
  | SBytes b => bytes_repr b
  | SStr p => p
  | SOther ty => "<" +:+ ty +:+ ">"
  end.

End Fmt.

(** ** The program *)

(** A local variable that an assignment may or may not have reached. *)
Inductive local (A : Type) :=
| Unbound
| Bound (a : A).
Arguments Unbound {A}.
Arguments Bound {A} a.

(** What [read_object_data] returns: the bytes given, a file object, or
    [None]. *)
Inductive object_data :=
| OBytes (b : list Byte.byte)
| OFile (h : nat)
| ONone.

(** Truth value: [bytes] when not empty, a file object always, [None] never. *)
Definition object_truthy (o : object_data) : bool :=
  match o with
  | OBytes b => negb (bool_decide (b = []))
  | OFile _ => true
  | ONone => false
  end.

(** The condition of line 33: [not backup_ext or file.endswith(backup_ext)]. *)
Definition selected (backup_ext file : string) : bool :=
  negb (Str.truthy backup_ext) || Str.endswith file backup_ext.

(** [save_history], lines 22-26. *)
Definition save_history (history_file_name : string) (data : response) : M unit :=
  let archive_id := dict_get data "archiveId" in
  Os.append_text history_file_name (Json.dumps archive_id).

(** The body of the loop of [find_backup], lines 33-36; [backups] is the
    set built so far. *)
Definition find_backup_step (backup_dir backup_ext : string)
    (backups : gset string) (file : string) : M (gset string) :=
  if selected backup_ext file then
    let backup_file_name := Path.join backup_dir file in
    log DEBUG ("Backup file " +:+ backup_file_name +:+ " added.");;
    mret (backups ∪ {[ backup_file_name ]})
  else mret backups.

(** [find_backup], lines 29-37. *)
Definition find_backup (backup_dir backup_ext : string) : M (gset string) :=
  files ← Os.listdir backup_dir;
  for_fold files (∅ : gset string) (find_backup_step backup_dir backup_ext).

(** [remove_backup], lines 40-47. *)
Definition remove_backup (file_name : string) : M unit :=
  log DEBUG ("Trying to remove file " +:+ file_name);;
  found ← Os.isfile file_name;
  if found : bool then
    Os.remove file_name;;
    log DEBUG ("File " +:+ file_name +:+ " removed")
  else
    log ERROR ("File " +:+ file_name +:+ " not found").

(** [read_object_data], lines 50-62. *)
Definition read_object_data (src_data : src) : M object_data :=
  match src_data with
  | SBytes b => mret (OBytes b)
  | SStr p =>
      try_except (h ← Os.open_rb p; mret (OFile h))
        is_FileNotFoundError
        (fun _ => log ERROR "Can't open src_data";; mret ONone)
  | SOther ty =>
      log ERROR ("<class '" +:+ ty +:+ "'> is not supported.");;
      mret ONone
  end.

(** What the client reads from [body]: the bytes, or the file's. *)
Definition body_of (o : object_data) (w : world) : list Byte.byte :=
  match o with
  | OBytes b => b
  | OFile h => match handles w !! h with
               | Some fo => fo_data fo
               | None => []
               end
  | ONone => []
  end.

Section Program.

Context (env : environment).

(** The [try] body of [upload_to_glacier], lines 82-87: the client is
    built and [upload_archive] is called; the call and its outcome are
    recorded in [remote]. *)
Definition glacier_upload_archive (req : glacier_request) : M response := fun w =>
  let out := upload_archive env (remote w) req in
  (out, add_call (GlacierCall req out) w).

(** The [try] body of [upload_to_s3], lines 112-116. *)
Definition s3_upload_file (req : s3_request) : M unit := fun w =>
  let out := upload_file env (remote w) req in
  (out, add_call (S3Call req out) w).

(** [upload_to_glacier], lines 65-94.  The function returns [None] or
    the response. *)
Definition upload_to_glacier (access secret vault_name : string) (src_data : src)
    : M (option response) :=
  object_data ← read_object_data src_data;
  if negb (object_truthy object_data) then mret None
  else
    archive ← try_except
      (fun w =>
         (a ← glacier_upload_archive
                {| g_access := access; g_secret := secret; vaultName := vault_name;
                   archiveDescription := src_data; body := body_of object_data w |};
          mret (Bound a)) w)
      is_ClientError
      (fun err =>
         log DEBUG (exn_str err);;
         log ERROR (Fmt.src_str src_data +:+ " was not uploaded to " +:+ vault_name);;
         mret Unbound);
    match src_data, object_data with
    | SStr _, OFile h => Os.close h
    | _, _ => mret tt
    end;;
    match archive with
    | Bound a => mret (Some a)
    | Unbound => raise (UnboundLocalError "archive")
    end.

(** [upload_to_s3], lines 97-119. *)
Definition upload_to_s3 (access secret bucket file_name : string) : M unit :=
  let object_name := Path.basename file_name in
  try_except
    (s3_upload_file
       {| s3_access := access; s3_secret := secret;
          Filename := file_name; Bucket := bucket; Key := object_name |})
    is_ClientError
    (fun err =>
       log DEBUG (exn_str err);;
       log ERROR (object_name +:+ " was not uploaded to " +:+ bucket)).

(** The body of the loop of [upload_list_to_glacier], lines 125-129. *)
Definition glacier_step (vault_name access secret history_file backup_file : string)
    : M unit :=
  archive ← upload_to_glacier access secret vault_name (SStr backup_file);
  match archive with
  | Some a =>
      if dict_truthy a then
        save_history history_file a;;
        log INFO ("File " +:+ backup_file +:+ " added to " +:+ vault_name);;
        remove_backup backup_file
      else mret tt
  | None => mret tt
  end.

(** [upload_list_to_glacier], lines 122-129. *)
Definition upload_list_to_glacier (vault_name access secret : string)
    (file_set : gset string) (history_file : string) : M unit :=
  for_each (set_order env file_set)
    (glacier_step vault_name access secret history_file).

(** The body of the loop of [upload_list_to_s3], lines 135-137. *)
Definition s3_step (bucket_name access secret backup_file : string) : M unit :=
  upload_to_s3 access secret bucket_name backup_file;;
  log INFO ("File " +:+ backup_file +:+ " added to " +:+ bucket_name);;
  remove_backup backup_file.

(** [upload_list_to_s3], lines 132-137. *)
Definition upload_list_to_s3 (bucket_name access secret : string)
    (file_set : gset string) : M unit :=
  for_each (set_order env file_set) (s3_step bucket_name access secret).

(** [parse_args], lines 140-170: the namespace of the command line; a
    [--mode] outside the two choices ends the process with status 2. *)
Definition parse_args : M Namespace := fun w =>
  let args := argv w in
  if String.eqb (mode args) "glacier" || String.eqb (mode args) "s3"
  then (Ok args, w)
  else (Raise (SystemExit 2), w).

(** [shutdown], lines 173-175. *)
Definition shutdown (lvl : Z) : M unit :=
  log INFO "Stop";;
  raise (SystemExit lvl).

(** [main], lines 178-199. *)
Definition main : M unit :=
  log INFO "Start";;
  args ← parse_args;
  backups_set ← find_backup (backup_dir args) (backup_ext args);
  (if bool_decide (backups_set = ∅) then
     log WARNING ("No backups in " +:+ backup_dir args +:+ " found. Exit.");;
     shutdown 1
   else mret tt);;
  (if String.eqb (mode args) "glacier" then
     upload_list_to_glacier (vault_name args) (access_key args) (secret_key args)
       backups_set (history_file args)
   else
     upload_list_to_s3 (bucket_name args) (access_key args) (secret_key args)
       backups_set);;
  shutdown 0.

(** The status the process ends with: the code of [sys.exit], 1 for any
    other exception that nothing catches, 0 when [main] returns. *)
Definition exit_status (r : result unit) : Z :=
  match r with
  | Ok _ => 0
  | Raise (SystemExit c) => c
  | Raise _ => 1
  end.

(** [if __name__ == '__main__': main()] *)
Definition run (w : world) : Z * world :=
  let '(r, w') := main w in (exit_status r, w').

End Program.

(** The defaults of [parse_args]. *)
Definition default_args : Namespace :=
  {| access_key := "Z123456"; secret_key := "A123456";
     vault_name := "some Glacier vault"; bucket_name := "some S3 bucket";
     backup_dir := "/data/backup"; history_file := "history.json";
     backup_ext := ".back.7z"; mode := "s3" |}.

(** The calls of a run that reported success to the caller: Glacier
    uploads that returned a response with a true truth value. *)
Definition successes (cs : list call) : list response :=
  omap (fun c => match c with
                 | GlacierCall _ (Ok a) => if dict_truthy a then Some a else None
                 | _ => None
                 end) cs.

(** The text one successful upload adds to the history file. *)
Definition history_entry (a : response) : list Byte.byte :=
  String.list_byte_of_string (Json.dumps (dict_get a "archiveId")).

(** ** Notions the properties are stated with *)

(** [name] ends with [suffix]. *)
Definition ends_with (name suffix : string) : Prop :=
  exists pre, name = pre +:+ suffix.

(** The calls made to AWS between the worlds [w] and [w']. *)
Definition new_calls (w w' : world) : list call :=
  drop (List.length (remote w)) (remote w').

(** The record [find_backup] logs for a file it adds. *)
Definition added_record (backup_dir file : string) : level * string :=
  (DEBUG, "Backup file " +:+ Path.join backup_dir file +:+ " added.").

(** The request [upload_to_s3] makes for a file. *)
Definition s3_request_for (access secret bucket file_name : string) : s3_request :=
  {| s3_access := access; s3_secret := secret;
     Filename := file_name; Bucket := bucket; Key := Path.basename file_name |}.

(** The request [upload_to_glacier] makes for the file at [path], whose
    bytes are [data]. *)
Definition glacier_request_for (access secret vault path : string)
    (data : list Byte.byte) : glacier_request :=
  {| g_access := access; g_secret := secret; vaultName := vault;
     archiveDescription := SStr path; body := data |}.

(** The characters of an archive id as Glacier gives them, and more:
    printable ASCII other than the double quote and the backslash. *)
Definition plain_char (c : ascii) : bool :=
  let n := nat_of_ascii c in
  (32 <=? n)%nat && (n <=? 126)%nat && negb (n =? 34)%nat && negb (n =? 92)%nat.

Definition plain (s : string) : Prop := Str.all plain_char s = true.

(** The records logged between the worlds [w] and [w']. *)
Definition new_records (w w' : world) : list (level * string) :=
  drop (List.length (records w)) (records w').

(** The file objects opened between the worlds [w] and [w']. *)
Definition new_handles (w w' : world) : list file_object :=
  drop (List.length (handles w)) (handles w').

(** The backend a call went to. *)
Definition is_glacier_call (c : call) : bool :=
  match c with GlacierCall _ _ => true | S3Call _ _ => false end.

Definition is_s3_call (c : call) : bool :=
  match c with S3Call _ _ => true | GlacierCall _ _ => false end.

(** The local file a call was made for: the [Filename] of an S3 upload,
    the path given as description of a Glacier upload. *)
Definition call_file (c : call) : option string :=
  match c with
  | S3Call req _ => Some (Filename req)
  | GlacierCall req _ =>
      match archiveDescription req with
      | SStr p => Some p
      | _ => None
      end
  end.

(** ** Worlds and environments to run the program in *)

Module Examples.

(** [/data/backup] holds two backups, a text file and a directory with an
    older backup inside. *)
Definition backups : gmap string node :=
  {[ "a.back.7z" := File (String.list_byte_of_string "AAAA");
     "b.back.7z" := File (String.list_byte_of_string "BB");
     "c.txt" := File [];
     "old" := Dir {[ "x.back.7z" := File [] ]} ]}.

(** [/srv/dump] holds one backup and, next to it, the history file. *)
Definition dump : gmap string node :=
  {[ "pg.7z" := File (String.list_byte_of_string "PGPG");
     "history.json" := File [] ]}.

Definition tree : gmap string node :=
  {[ "data" := Dir {[ "backup" := Dir backups; "empty" := Dir ∅ ]};
     "srv" := Dir {[ "dump" := Dir dump ]} ]}.

Definition args_for (m dir : string) : Namespace :=
  {| access_key := access_key default_args; secret_key := secret_key default_args;
     vault_name := vault_name default_args; bucket_name := bucket_name default_args;
     backup_dir := dir; history_file := history_file default_args;
     backup_ext := backup_ext default_args; mode := m |}.

(** The process started in [/data] with [--mode m --backup_dir dir]. *)
Definition start (m dir : string) : world :=
  {| root := tree; cwd := ["data"]; handles := []; records := []; remote := [];
     argv := args_for m dir |}.

(** The process started in [/data] with
    [--mode m --backup_dir dir --backup_ext ext --history_file hist]. *)
Definition start_with (m dir ext hist : string) : world :=
  {| root := tree; cwd := ["data"]; handles := []; records := []; remote := [];
     argv := {| access_key := access_key default_args;
                secret_key := secret_key default_args;
                vault_name := vault_name default_args;
                bucket_name := bucket_name default_args;
                backup_dir := dir; history_file := hist;
                backup_ext := ext; mode := m |} |}.

(** AWS refuses every call. *)
Definition refusing : environment :=
  {| upload_archive := fun _ _ => Raise (ClientError "An error occurred (AccessDenied)");
     upload_file := fun _ _ => Raise (ClientError "An error occurred (AccessDenied)");
     set_order := elements;
     set_order_perm := fun X => reflexivity (elements X) |}.

(** AWS accepts every call; the n-th archive gets the id [XYZ] followed
    by n. *)
Definition accepting : environment :=
  {| upload_archive := fun calls _ =>
       Ok {[ "archiveId" := PStr ("XYZ" +:+ pretty (List.length calls));
             "location" := PStr "/archives" ]};
     upload_file := fun _ _ => Ok tt;
     set_order := elements;
     set_order_perm := fun X => reflexivity (elements X) |}.

(** AWS accepts the first call and refuses the ones after it. *)
Definition first_only : environment :=
  {| upload_archive := fun calls _ =>
       match calls with
       | [] => Ok {[ "archiveId" := PStr "XYZ" ]}
       | _ => Raise (ClientError "An error occurred (Throttling)")
       end;
     upload_file := fun calls _ =>
       match calls with
       | [] => Ok tt
       | _ => Raise (ClientError "An error occurred (Throttling)")
       end;
     set_order := elements;
     set_order_perm := fun X => reflexivity (elements X) |}.


End Examples.

(** Unfolding the monad of the program. *)
Ltac unfold_monad :=
  unfold mbind, M_bind, mret, M_ret, raise, try_except, log in *.

(** * Properties *)

(** * Strings *)

Module StrFacts.

Lemma str_app_cons a s t : String a s +:+ t = String a (s +:+ t).
Proof. reflexivity. Qed.

Lemma str_app_nil_l t : EmptyString +:+ t = t.
Proof. reflexivity. Qed.

Lemma str_app_nil_r s : s +:+ EmptyString = s.
Proof. induction s as [|a s IH]; [done|]. by rewrite str_app_cons, IH. Qed.

Lemma str_app_assoc s t u : (s +:+ t) +:+ u = s +:+ (t +:+ u).
Proof. induction s as [|a s IH]; [done|]. by rewrite !str_app_cons, IH. Qed.

Lemma str_length_app s t :
  String.length (s +:+ t) = (String.length s + String.length t)%nat.
Proof. induction s as [|a s IH]; [done|]. rewrite str_app_cons. simpl. by rewrite IH. Qed.

Lemma str_drop_app s t : Str.drop (String.length s) (s +:+ t) = t.
Proof. induction s as [|a s IH]; [done|]. rewrite str_app_cons. simpl. done. Qed.

Lemma str_drop_split n s : exists pre, s = pre +:+ Str.drop n s.
Proof.
  revert s. induction n as [|n IH]; intros s.
  - by exists EmptyString.
  - destruct s as [|a s]; [by exists EmptyString|].
    destruct (IH s) as [pre Hpre]. exists (String a pre).
    rewrite str_app_cons. simpl. by rewrite <- Hpre.
Qed.

(** [s.endswith(suf)] holds exactly when [s] is some text followed by
    [suf]. *)
Lemma endswith_spec s suf :
  Str.endswith s suf = true <-> exists pre, s = pre +:+ suf.
Proof.
  unfold Str.endswith. rewrite andb_true_iff, Nat.leb_le, String.eqb_eq. split.
  - intros [_ Hd]. destruct (str_drop_split (String.length s - String.length suf) s) as [pre Hp].
    exists pre. by rewrite Hd in Hp.
  - intros [pre ->]. rewrite str_length_app. split; [lia|].
    replace (String.length pre + String.length suf - String.length suf)%nat
      with (String.length pre) by lia.
    apply str_drop_app.
Qed.

Lemma endswith_nil s : Str.endswith s EmptyString = true.
Proof. apply endswith_spec. exists s. by rewrite str_app_nil_r. Qed.

Lemma startswith_app_l s t pre :
  s <> EmptyString -> String.length pre = 1%nat ->
  Str.startswith (s +:+ t) pre = Str.startswith s pre.
Proof.
  destruct s as [|a s]; [congruence|]. intros _.
  destruct pre as [|b [|c pre]]; done.
Qed.

Lemma contains_app c s t :
  Str.contains c (s +:+ t) = Str.contains c s || Str.contains c t.
Proof.
  induction s as [|a s IH]; [done|]. rewrite str_app_cons. simpl.
  rewrite IH. by rewrite orb_assoc.
Qed.

Lemma rfind_absent c s : Str.contains c s = false -> Str.rfind c s = (-1)%Z.
Proof.
  induction s as [|a s IH]; [done|]. simpl.
  intros [Ha Hs]%orb_false_iff. rewrite (IH Hs), Ha. done.
Qed.

Lemma rfind_last c s t :
  Str.contains c t = false ->
  Str.rfind c (s +:+ String c t) = Z.of_nat (String.length s).
Proof.
  intros Ht. induction s as [|a s IH].
  - rewrite str_app_nil_l. simpl. rewrite (rfind_absent _ _ Ht), Ascii.eqb_refl. done.
  - rewrite str_app_cons. simpl Str.rfind. rewrite IH.
    destruct (0 <=? Z.of_nat (String.length s))%Z eqn:E; [|lia].
    simpl String.length. lia.
Qed.

(** [rfind] either finds nothing, and the character is not in the
    string, or splits the string at the last occurrence. *)
Lemma rfind_spec c s :
  (Str.rfind c s = (-1)%Z /\ Str.contains c s = false)
  \/ exists pre post,
       s = pre +:+ String c post /\ Str.contains c post = false
       /\ Str.rfind c s = Z.of_nat (String.length pre).
Proof.
  induction s as [|a s IH].
  - by left.
  - destruct IH as [[Hr Hc]|(pre & post & -> & Hpost & Hr)].
    + destruct (Ascii.eqb a c) eqn:Ha.
      * right. apply Ascii.eqb_eq in Ha as ->. exists EmptyString, s.
        rewrite str_app_nil_l. split; [done|]. split; [done|].
        apply (rfind_last c EmptyString s Hc).
      * left. simpl. rewrite Hr, Ha, Hc. done.
    + right. exists (String a pre), post. rewrite str_app_cons.
      split; [done|]. split; [done|].
      apply (rfind_last c (String a pre) post Hpost).
Qed.

End StrFacts.

(** * Paths *)

Module PathFacts.
Import StrFacts.

Lemma valid_no_slash n : Path.valid_name n -> Str.contains Str.slash n = false.
Proof. by intros (_ & ? & _). Qed.

Lemma valid_not_absolute n : Path.valid_name n -> Str.startswith n "/" = false.
Proof.
  intros (Hne & Hc & _). destruct n as [|a n]; [done|].
  cbn [Str.contains] in Hc. apply orb_false_iff in Hc as [Ha _].
  cbn [Str.startswith]. rewrite Ascii.eqb_sym. fold Str.slash. by rewrite Ha.
Qed.

(** The two shapes of [join D n] for a directory path and an entry name. *)
Lemma join_cases D n :
  Path.valid_name n -> D <> EmptyString ->
  (exists pre, D = pre +:+ "/" /\ Path.join D n = D +:+ n)
  \/ Path.join D n = D +:+ String Str.slash n.
Proof.
  intros Hn HD. unfold Path.join. rewrite (valid_not_absolute n Hn).
  destruct D as [|a D]; [done|]. simpl negb. rewrite orb_false_l.
  destruct (Str.endswith (String a D) "/") eqn:E.
  - left. apply endswith_spec in E as [pre Hpre]. by exists pre.
  - by right.
Qed.

Lemma join_truthy D n : Path.valid_name n -> Str.truthy (Path.join D n) = true.
Proof.
  intros Hn. unfold Path.join. rewrite (valid_not_absolute n Hn).
  destruct Hn as (Hne & _). destruct n as [|b n]; [done|].
  destruct (negb (Str.truthy D) || Str.endswith D "/"); by destruct D.
Qed.

Lemma join_absolute D n :
  Path.valid_name n -> D <> EmptyString ->
  Str.startswith (Path.join D n) "/" = Str.startswith D "/".
Proof.
  intros Hn HD. destruct (join_cases D n Hn HD) as [(pre & _ & ->)| ->];
    by apply startswith_app_l.
Qed.

(** [join D] sends different names to different paths. *)
Lemma join_inj D n1 n2 :
  Path.valid_name n1 -> Path.valid_name n2 ->
  Path.join D n1 = Path.join D n2 -> n1 = n2.
Proof.
  intros H1 H2. unfold Path.join.
  rewrite (valid_not_absolute n1 H1), (valid_not_absolute n2 H2).
  destruct (negb (Str.truthy D) || Str.endswith D "/"); intros Heq.
  - by apply (inj (String.app D)) in Heq.
  - apply (inj (String.app D)) in Heq. by apply (inj (String.app "/")) in Heq.
Qed.

(** [basename] cuts the path after its last slash. *)
Lemma basename_spec p :
  exists dir,
    p = dir +:+ Path.basename p
    /\ Str.contains Str.slash (Path.basename p) = false
    /\ (dir = EmptyString \/ Str.endswith dir "/" = true).
Proof.
  unfold Path.basename.
  destruct (rfind_spec Str.slash p) as [[Hr Hc]|(pre & post & Hp & Hpost & Hr)].
  - rewrite Hr. simpl. exists EmptyString. auto.
  - rewrite Hr. replace (Z.to_nat (Z.of_nat (String.length pre) + 1))
      with (String.length (pre +:+ "/")) by (rewrite str_length_app; simpl; lia).
    assert (p = (pre +:+ "/") +:+ post) as Hp'.
    { by rewrite str_app_assoc. }
    clear Hp Hr. subst p. rewrite str_drop_app.
    exists (pre +:+ "/"). split; [done|]. split; [done|]. right.
    apply endswith_spec. by exists pre.
Qed.

Lemma basename_no_slash n :
  Str.contains Str.slash n = false -> Path.basename n = n.
Proof. intros Hc. unfold Path.basename. by rewrite (rfind_absent _ _ Hc). Qed.

Lemma basename_after_slash s n :
  Str.contains Str.slash n = false ->
  Path.basename (s +:+ String Str.slash n) = n.
Proof.
  intros Hc. unfold Path.basename. rewrite (rfind_last _ s n Hc).
  replace (Z.to_nat (Z.of_nat (String.length s) + 1))
    with (String.length (s +:+ "/")) by (rewrite str_length_app; simpl; lia).
  replace (s +:+ String Str.slash n) with ((s +:+ "/") +:+ n) by (by rewrite str_app_assoc).
  apply str_drop_app.
Qed.

(** The base name of a located file is the entry's name. *)
Lemma basename_join D n : Path.valid_name n -> Path.basename (Path.join D n) = n.
Proof.
  intros Hn. pose proof (valid_no_slash n Hn) as Hc.
  destruct (decide (D = EmptyString)) as [->|HD].
  - unfold Path.join. rewrite (valid_not_absolute n Hn). simpl.
    by apply basename_no_slash.
  - destruct (join_cases D n Hn HD) as [(pre & HDp & ->)| ->].
    + rewrite HDp, str_app_assoc. by apply basename_after_slash.
    + by apply basename_after_slash.
Qed.

(** A located path does not end in a slash. *)
Lemma join_no_trailing_slash D n :
  Path.valid_name n -> Str.endswith (Path.join D n) "/" = false.
Proof.
  intros Hn. destruct (Str.endswith (Path.join D n) "/") eqn:E; [|done].
  apply endswith_spec in E as [pre Hpre].
  pose proof (basename_join D n Hn) as Hb. rewrite Hpre in Hb.
  change (pre +:+ "/") with (pre +:+ String Str.slash EmptyString) in Hb.
  rewrite basename_after_slash in Hb by done. by destruct Hn as [Hne _].
Qed.

Lemma components_go_slash acc s t :
  Path.components_go acc (s +:+ String Str.slash t)
  = Path.components_go acc s ++ Path.components_go EmptyString t.
Proof.
  revert acc. induction s as [|c s IH]; intros acc.
  - rewrite str_app_nil_l. cbn [Path.components_go]. by rewrite Ascii.eqb_refl.
  - rewrite str_app_cons. cbn [Path.components_go]. destruct (Ascii.eqb c Str.slash).
    + by rewrite IH, (assoc_L (++)).
    + apply IH.
Qed.

Lemma components_go_name acc n :
  Str.contains Str.slash n = false ->
  Path.components_go acc n = Path.flush (acc +:+ n).
Proof.
  revert acc. induction n as [|c n IH]; intros acc Hc.
  - by rewrite str_app_nil_r.
  - cbn [Path.components_go Str.contains] in *.
    apply orb_false_iff in Hc as [Hc1 Hc2]. rewrite Hc1.
    rewrite (IH _ Hc2). by rewrite str_app_assoc.
Qed.

Lemma components_name n : Path.valid_name n -> Path.components n = [n].
Proof.
  intros (Hne & Hc & _). unfold Path.components.
  rewrite (components_go_name _ _ Hc), str_app_nil_l. unfold Path.flush.
  by destruct (decide _).
Qed.

(** A located file lies one name below the directory. *)
Lemma components_join D n :
  Path.valid_name n -> D <> EmptyString ->
  Path.components (Path.join D n) = Path.components D ++ [n].
Proof.
  intros Hn HD. pose proof (components_name n Hn) as Hcn.
  unfold Path.components in *.
  destruct (join_cases D n Hn HD) as [(pre & HDp & ->)| ->].
  - rewrite HDp, str_app_assoc. change ("/" +:+ n) with (String Str.slash n).
    change (pre +:+ "/") with (pre +:+ String Str.slash EmptyString).
    rewrite !components_go_slash, Hcn. cbn [Path.components_go].
    change (Path.flush EmptyString) with (@nil string). by rewrite (right_id_L [] (++)).
  - by rewrite components_go_slash, Hcn.
Qed.

(** A path without names is empty or ends in a slash. *)
Lemma components_go_nil acc s :
  Path.components_go acc s = [] ->
  acc = EmptyString /\ (s = EmptyString \/ Str.endswith s "/" = true).
Proof.
  revert acc. induction s as [|c s IH]; intros acc.
  - cbn [Path.components_go]. unfold Path.flush. destruct (decide _); [auto|done].
  - cbn [Path.components_go]. destruct (Ascii.eqb_spec c Str.slash) as [->|Hc].
    + unfold Path.flush at 1. destruct (decide _) as [->|]; [|done].
      cbn [app]. intros H. split; [done|]. right.
      apply IH in H as [_ [->|H]]; [done|].
      apply endswith_spec in H as [pre ->]. apply endswith_spec.
      by exists (String Str.slash pre).
    + intros H. apply IH in H as [H _]. by destruct acc.
Qed.

Lemma components_nil p :
  Path.components p = [] -> p = EmptyString \/ Str.endswith p "/" = true.
Proof. intros H. by apply components_go_nil in H as [_ H]. Qed.

End PathFacts.

(** * The directory tree *)

Module FsFacts.

Lemma walk_app n cs1 cs2 :
  Fs.walk n (cs1 ++ cs2)
  = match Fs.walk n cs1 with
    | inr m => Fs.walk m cs2
    | inl e => inl e
    end.
Proof.
  revert n. induction cs1 as [|c cs1 IH]; intros n; [done|].
  simpl. destruct n as [d|es]; [done|]. destruct (es !! c); [apply IH|done].
Qed.

Lemma modify_dir f cs es : Fs.modify f cs (Dir es) = Dir (Fs.update f cs es).
Proof. unfold Fs.update. by destruct cs as [|c [|c' cs]]. Qed.

Lemma is_file_shape r : Fs.is_file r = true <-> exists d, Fs.shape_of r = Fs.IsFile d.
Proof.
  destruct r as [e|[d|es]]; simpl; split; try done; try (by intros [? ?]).
  intros _. by exists d.
Qed.

(** A write or removal at the place of a regular file, or at a free
    place, leaves every other place as it was. *)
Lemma shape_modify_other f cs cs' n :
  cs <> cs' ->
  Fs.shape_of (Fs.walk n cs) <> Fs.IsDir ->
  (forall o es, f o <> Some (Dir es)) ->
  Fs.shape_of (Fs.walk (Fs.modify f cs n) cs') = Fs.shape_of (Fs.walk n cs').
Proof.
  intros Hne Hnd Hf. revert n cs' Hne Hnd.
  induction cs as [|c cs IH]; intros n cs' Hne Hnd; [done|].
  destruct n as [d|es]; [done|].
  destruct cs' as [|c' cs'].
  { simpl. by destruct cs. }
  destruct (decide (c = c')) as [<-|Hc].
  - assert (cs <> cs') as Hne' by congruence.
    destruct cs as [|c1 cs1].
    + destruct cs' as [|c2 cs2]; [done|].
      cbn [Fs.modify Fs.walk] in *. rewrite lookup_partial_alter_eq.
      destruct (es !! c) as [[d|es']|] eqn:E; simpl in Hnd; try done.
      * destruct (f (Some (File d))) as [[d'|es'']|] eqn:Ef; try done.
        by destruct (Hf _ _ Ef).
      * destruct (f None) as [[d'|es'']|] eqn:Ef; try done.
        by destruct (Hf _ _ Ef).
    + cbn [Fs.modify]. cbn [Fs.walk] in *. rewrite lookup_alter_eq.
      destruct (es !! c) as [m|] eqn:E; [|done]. simpl.
      by apply IH.
  - destruct cs as [|c1 cs1]; cbn [Fs.modify Fs.walk].
    + by rewrite lookup_partial_alter_ne.
    + by rewrite lookup_alter_ne.
Qed.

(** Reading back the place that was written. *)
Lemma walk_modify_same f cs n m :
  cs <> [] -> Fs.walk n cs = inr m ->
  Fs.walk (Fs.modify f cs n) cs
  = match f (Some m) with Some m' => inr m' | None => inl ENOENT end.
Proof.
  revert n. induction cs as [|c cs IH]; intros n Hne Hw; [done|].
  destruct n as [d|es]; [done|]. cbn [Fs.walk] in Hw.
  destruct (es !! c) as [m0|] eqn:E; [|done].
  destruct cs as [|c1 cs1].
  - simpl in Hw. injection Hw as ->. cbn [Fs.modify Fs.walk].
    rewrite lookup_partial_alter_eq, E. by destruct (f (Some m)).
  - cbn [Fs.modify]. cbn [Fs.walk]. rewrite lookup_alter_eq, E. simpl.
    by apply IH.
Qed.

(** Reading back a file created in an existing directory. *)
Lemma walk_modify_new f cs n :
  Fs.walk n cs = inl ENOENT ->
  Fs.shape_of (Fs.walk n (removelast cs)) = Fs.IsDir ->
  Fs.walk (Fs.modify f cs n) cs
  = match f None with Some m' => inr m' | None => inl ENOENT end.
Proof.
  revert n. induction cs as [|c cs IH]; intros n Hw Hp; [done|].
  destruct n as [d|es]; [done|]. cbn [Fs.walk] in Hw.
  destruct cs as [|c1 cs1].
  - destruct (es !! c) as [m0|] eqn:E; [done|]. cbn [Fs.modify Fs.walk].
    rewrite lookup_partial_alter_eq, E. by destruct (f None).
  - change (removelast (c :: c1 :: cs1)) with (c :: removelast (c1 :: cs1)) in Hp.
    cbn [Fs.walk] in Hp. cbn [Fs.modify]. cbn [Fs.walk].
    rewrite lookup_alter_eq. destruct (es !! c) as [m0|] eqn:E; [|done]. simpl.
    by apply IH.
Qed.

(** The parent of a place that holds something is a directory. *)
Lemma walk_parent n cs m :
  cs <> [] -> Fs.walk n cs = inr m ->
  Fs.shape_of (Fs.walk n (removelast cs)) = Fs.IsDir.
Proof.
  revert n. induction cs as [|c cs IH]; intros n Hne Hw; [done|].
  destruct n as [d|es]; [done|]. destruct cs as [|c1 cs1]; [done|].
  change (removelast (c :: c1 :: cs1)) with (c :: removelast (c1 :: cs1)).
  cbn [Fs.walk] in *. destruct (es !! c) as [m0|]; [|done]. by apply IH.
Qed.

(** A write or removal that makes no directory leaves none at its place. *)
Lemma shape_modify_same f cs n :
  Fs.shape_of (Fs.walk n cs) <> Fs.IsDir ->
  (forall o es, f o <> Some (Dir es)) ->
  Fs.shape_of (Fs.walk (Fs.modify f cs n) cs) <> Fs.IsDir.
Proof.
  intros Hnd Hf. revert n Hnd. induction cs as [|c cs IH]; intros n Hnd; [done|].
  destruct n as [d|es]; [done|]. destruct cs as [|c1 cs1].
  - cbn [Fs.modify Fs.walk]. rewrite lookup_partial_alter_eq.
    destruct (f (es !! c)) as [[d'|es']|] eqn:Ef; try done. by destruct (Hf _ _ Ef).
  - cbn [Fs.modify]. cbn [Fs.walk] in *. rewrite lookup_alter_eq.
    destruct (es !! c) as [m|] eqn:E; [|done]. simpl. by apply IH.
Qed.

Lemma same_dirs_refl n : Fs.same_dirs n n.
Proof. by intros cs. Qed.

Lemma same_dirs_sym n n' : Fs.same_dirs n n' -> Fs.same_dirs n' n.
Proof. intros H cs. by rewrite (H cs). Qed.

Lemma same_dirs_trans n1 n2 n3 :
  Fs.same_dirs n1 n2 -> Fs.same_dirs n2 n3 -> Fs.same_dirs n1 n3.
Proof. intros H1 H2 cs. by rewrite (H1 cs), (H2 cs). Qed.

(** Writing or removing a regular file moves no directory. *)
Lemma same_dirs_modify f cs n :
  Fs.shape_of (Fs.walk n cs) <> Fs.IsDir ->
  (forall o es, f o <> Some (Dir es)) ->
  Fs.same_dirs n (Fs.modify f cs n).
Proof.
  intros Hnd Hf cs'. destruct (decide (cs = cs')) as [<-|Hne].
  - pose proof (shape_modify_same f cs n Hnd Hf). split; intros; done.
  - by rewrite (shape_modify_other f cs cs' n Hne Hnd Hf).
Qed.

(** Below a directory there is an entry or none: no other error. *)
Lemma walk_in_dir n cs e :
  Fs.shape_of (Fs.walk n (removelast cs)) = Fs.IsDir -> cs <> [] ->
  Fs.walk n cs = inl e -> e = ENOENT.
Proof.
  intros Hpar Hne. destruct cs as [|x cs']; [done|].
  rewrite (app_removelast_last x Hne), walk_app.
  destruct (Fs.walk n (removelast (x :: cs'))) as [e'|[d|es]]; try done.
  simpl. destruct (es !! _); [done|]. congruence.
Qed.

Lemma walk_not_eisdir n cs : Fs.walk n cs <> inl EISDIR.
Proof.
  revert n. induction cs as [|c cs IH]; intros n; [done|].
  destruct n as [d|es]; [done|]. simpl. destruct (es !! c); [apply IH|done].
Qed.

End FsFacts.

Import StrFacts PathFacts FsFacts.

(** * Path resolution *)

Lemma descend_app r cur cs1 cs2 :
  Os.descend r cur (cs1 ++ cs2)
  = match Os.descend r cur cs1 with
    | inr c => Os.descend r c cs2
    | inl e => inl e
    end.
Proof.
  revert cur. induction cs1 as [|c cs1 IH]; intros cur; [done|].
  cbn [app Os.descend]. by destruct (Fs.walk r cur) as [e|[d|es]].
Qed.

(** Resolution looks at directories only: it finds the same place in two
    trees that have their directories at the same places. *)
Lemma descend_same_dirs r r' cur cs x :
  Fs.same_dirs r r' -> Os.descend r cur cs = inr x -> Os.descend r' cur cs = inr x.
Proof.
  intros Hs. revert cur. induction cs as [|c cs IH]; intros cur; [done|].
  cbn [Os.descend]. destruct (Fs.walk r cur) as [e|[d|es]] eqn:Hw; try done.
  intros H. assert (Fs.shape_of (Fs.walk r' cur) = Fs.IsDir) as Hd.
  { apply Hs. by rewrite Hw. }
  destruct (Fs.walk r' cur) as [e'|[d'|es']]; try done. by apply IH.
Qed.

Lemma descend_not_eisdir r cur cs : Os.descend r cur cs <> inl EISDIR.
Proof.
  revert cur. induction cs as [|c cs IH]; intros cur; [done|].
  cbn [Os.descend]. destruct (Fs.walk r cur) as [e|[d|es]] eqn:Hw; [|done|apply IH].
  intros [= ->]. by apply walk_not_eisdir in Hw.
Qed.

(** Where names have been followed to, there is a directory, or the
    place lies in one. *)
Lemma descend_last r cur cs x :
  cs <> [] -> Os.descend r cur cs = inr x ->
  Fs.shape_of (Fs.walk r x) = Fs.IsDir
  \/ (x <> [] /\ Fs.shape_of (Fs.walk r (removelast x)) = Fs.IsDir).
Proof.
  revert cur. induction cs as [|c cs IH]; intros cur Hne; [done|].
  cbn [Os.descend]. destruct (Fs.walk r cur) as [e|[d|es]] eqn:Hw; try done.
  destruct cs as [|c1 cs1]; [|by apply IH].
  cbn [Os.descend]. intros [= <-]. unfold Os.step.
  destruct (decide (c = ".")); [left; by rewrite Hw|].
  destruct (decide (c = "..")).
  - left. destruct (decide (cur = [])) as [->|Hcur]; [cbn [removelast]; by rewrite Hw|].
    by apply (walk_parent _ _ _ Hcur Hw).
  - right. split; [by destruct cur|]. by rewrite removelast_last, Hw.
Qed.

Lemma follow_same_dirs r r' wd p cs :
  Fs.same_dirs (Dir r) (Dir r') ->
  Os.follow r wd p = inr cs -> Os.follow r' wd p = inr cs.
Proof.
  unfold Os.follow. intros Hs. destruct (negb (Str.truthy p)); [done|].
  by apply descend_same_dirs.
Qed.

(** Where the names of a path without a trailing slash lead to, there is
    a directory, or the place lies in one. *)
Lemma follow_last r wd p cs :
  Str.endswith p "/" = false -> Os.follow r wd p = inr cs ->
  Fs.shape_of (Fs.walk (Dir r) cs) = Fs.IsDir
  \/ (cs <> [] /\ Fs.shape_of (Fs.walk (Dir r) (removelast cs)) = Fs.IsDir).
Proof.
  unfold Os.follow. intros Hsl. destruct p as [|a p]; [done|]. cbn [Str.truthy negb].
  apply descend_last. intros Hnil. apply components_nil in Hnil as [?|?]; congruence.
Qed.

Lemma resolve_follow r wd p cs :
  Os.resolve r wd p = inr cs -> Os.follow r wd p = inr cs.
Proof.
  unfold Os.resolve. destruct (Os.follow r wd p) as [e|cs']; [done|].
  destruct (Str.endswith p "/"); [|done].
  by destruct (Fs.walk (Dir r) cs') as [e|[d|es]].
Qed.

Lemma resolve_no_slash r wd p :
  Str.endswith p "/" = false -> Os.resolve r wd p = Os.follow r wd p.
Proof. unfold Os.resolve. intros ->. by destruct (Os.follow r wd p). Qed.

Lemma resolve_same_dirs r r' wd p cs :
  Fs.same_dirs (Dir r) (Dir r') ->
  Os.resolve r wd p = inr cs -> Os.resolve r' wd p = inr cs.
Proof.
  intros Hs H. pose proof (resolve_follow _ _ _ _ H) as Hf.
  unfold Os.resolve in *. rewrite Hf in H. rewrite (follow_same_dirs _ _ _ _ _ Hs Hf).
  destruct (Str.endswith p "/"); [|done].
  destruct (Fs.walk (Dir r) cs) as [e|[d|es]] eqn:Hw; try done.
  assert (Fs.shape_of (Fs.walk (Dir r') cs) = Fs.IsDir) as Hd.
  { apply Hs. by rewrite Hw. }
  by destruct (Fs.walk (Dir r') cs) as [e'|[d'|es']].
Qed.

(** The kernel reports a directory only to who asks for something else:
    resolution itself fails in two ways. *)
Lemma resolve_not_eisdir r wd p : Os.resolve r wd p <> inl EISDIR.
Proof.
  unfold Os.resolve, Os.follow. destruct (negb (Str.truthy p)); [done|].
  destruct (Os.descend _ _ _) as [e|cs] eqn:Hd.
  - intros [= ->]. by apply descend_not_eisdir in Hd.
  - destruct (Str.endswith p "/"); [|done].
    destruct (Fs.walk (Dir r) cs) as [e|[d|es]] eqn:Hw; try done.
    intros [= ->]. by apply walk_not_eisdir in Hw.
Qed.

(** Two paths that stand for different places go on doing so while no
    directory is made or removed. *)
Lemma resolve_neq_same_dirs r r' wd p q cs :
  Fs.same_dirs (Dir r) (Dir r') -> Os.resolve r wd p = inr cs ->
  Os.resolve r wd q <> Os.resolve r wd p ->
  Os.resolve r' wd q <> Os.resolve r' wd p.
Proof.
  intros Hs Hp Hne. rewrite (resolve_same_dirs _ _ _ _ _ Hs Hp). intros Hq.
  apply (resolve_same_dirs _ _ _ _ _ (same_dirs_sym _ _ Hs)) in Hq. congruence.
Qed.

(** * Worlds *)

Lemma add_records_nil w : add_records [] w = w.
Proof. destruct w. unfold add_records. simpl. by rewrite (right_id_L [] (++)). Qed.

Lemma add_records_app rs1 rs2 w :
  add_records rs2 (add_records rs1 w) = add_records (rs1 ++ rs2) w.
Proof. unfold add_records. simpl. by rewrite (assoc_L (++)). Qed.

Lemma new_calls_app w w' cs : remote w' = remote w ++ cs -> new_calls w w' = cs.
Proof. intros H. unfold new_calls. rewrite H. apply drop_app_length. Qed.

Lemma lookup_same_tree w w' p :
  root w' = root w -> cwd w' = cwd w -> Os.lookup w' p = Os.lookup w p.
Proof. intros Hr Hc. unfold Os.lookup. by rewrite Hr, Hc. Qed.

Lemma lookup_add_records rs w p : Os.lookup (add_records rs w) p = Os.lookup w p.
Proof. done. Qed.

Lemma lookup_not_eisdir w p : Os.lookup w p <> inl EISDIR.
Proof.
  unfold Os.lookup. destruct (Os.resolve _ _ p) as [e|cs] eqn:H.
  - intros [= ->]. by apply resolve_not_eisdir in H.
  - apply walk_not_eisdir.
Qed.

Lemma is_file_of_shape r :
  Fs.is_file r = match Fs.shape_of r with Fs.IsFile _ => true | _ => false end.
Proof. by destruct r as [e|[d|es]]. Qed.

(** What a path finds is the same in two worlds that have their
    directories at the same places and hold the same at the place the
    path stands for. *)
Lemma shape_lookup_frame w w' q :
  cwd w' = cwd w ->
  Fs.same_dirs (Dir (root w)) (Dir (root w')) ->
  (forall cs, Os.resolve (root w) (cwd w) q = inr cs ->
     Fs.shape_of (Fs.walk (Dir (root w')) cs) = Fs.shape_of (Fs.walk (Dir (root w)) cs)) ->
  Fs.shape_of (Os.lookup w' q) = Fs.shape_of (Os.lookup w q).
Proof.
  intros Hcwd Hs Hframe. unfold Os.lookup. rewrite Hcwd.
  destruct (Os.resolve (root w) (cwd w) q) as [e|cs] eqn:Hq.
  - destruct (Os.resolve (root w') (cwd w) q) as [e'|cs'] eqn:Hq'; [done|].
    apply (resolve_same_dirs _ _ _ _ _ (same_dirs_sym _ _ Hs)) in Hq'. congruence.
  - rewrite (resolve_same_dirs _ _ _ _ _ Hs Hq). by apply Hframe.
Qed.

Lemma selected_spec E name :
  selected E name = true <-> E = EmptyString \/ ends_with name E.
Proof.
  unfold selected, ends_with. rewrite orb_true_iff, endswith_spec.
  destruct E; simpl; split; intros [?|?]; auto; done.
Qed.

(** * The Backup Locator *)

Lemma find_backup_loop D E files acc w :
  for_fold files acc (find_backup_step D E) w
  = (Ok (acc ∪ list_to_set (Path.join D <$> filter (fun f => selected E f = true) files)),
     add_records (added_record D <$> filter (fun f => selected E f = true) files) w).
Proof.
  revert acc w. induction files as [|f files IH]; intros acc w.
  - simpl. unfold_monad. rewrite add_records_nil. f_equal. f_equal. set_solver.
  - cbn [for_fold]. unfold mbind, M_bind. unfold find_backup_step at 1.
    rewrite filter_cons. destruct (decide (selected E f = true)) as [Hs|Hs].
    + rewrite Hs. unfold_monad. rewrite IH. rewrite add_records_app.
      f_equal. f_equal. rewrite fmap_cons, list_to_set_cons. set_solver.
    + apply not_true_is_false in Hs. rewrite Hs. unfold_monad. by rewrite IH.
Qed.

(** [find_backup] in closed form: the paths of the selected entries, one
    log record for each, and the errors of [os.listdir]. *)
Lemma find_backup_eq D E w :
  find_backup D E w
  = match Os.lookup w D with
    | inr (Dir es) =>
        let sel := filter (fun f => selected E f = true) (Fs.names es) in
        (Ok (list_to_set (Path.join D <$> sel)), add_records (added_record D <$> sel) w)
    | inr (File _) => (Raise (NotADirectoryError D), w)
    | inl e => (Raise (Os.oserror e D), w)
    end.
Proof.
  unfold find_backup, Os.listdir. unfold mbind, M_bind.
  destruct (Os.lookup w D) as [e|[d|es]]; try done.
  rewrite find_backup_loop. cbn zeta. f_equal. f_equal. set_solver.
Qed.

Lemma elem_of_names es name : name ∈ Fs.names es <-> is_Some (es !! name).
Proof.
  unfold Fs.names. rewrite list_elem_of_fmap. split.
  - intros ([k v] & -> & Hin). apply elem_of_map_to_list in Hin. by exists v.
  - intros [v Hv]. exists (name, v). split; [done|]. by apply elem_of_map_to_list.
Qed.

(** A located path stands for the entry of its name in the directory,
    whatever the spelling of the directory path. *)
Lemma resolve_join r wd D n cs es :
  Path.valid_name n ->
  Os.resolve r wd D = inr cs -> Fs.walk (Dir r) cs = inr (Dir es) ->
  Os.resolve r wd (Path.join D n) = inr (cs ++ [n]).
Proof.
  intros Hn Hres Hw. apply resolve_follow in Hres.
  rewrite resolve_no_slash by (by apply join_no_trailing_slash).
  unfold Os.follow in *. rewrite (join_truthy D n Hn).
  destruct D as [|a D]; [done|]. cbn [Str.truthy negb] in *.
  rewrite join_absolute, components_join, descend_app, Hres by done.
  cbn [Os.descend]. rewrite Hw. unfold Os.step.
  destruct Hn as (_ & _ & Hdot & Hdots).
  destruct (decide (n = ".")); [done|]. by destruct (decide (n = "..")).
Qed.

(** The paths of two entries of one directory stand for different
    places: a located set holds no file twice. *)
Lemma located_places_distinct w D es n1 n2 :
  Os.lookup w D = inr (Dir es) ->
  Path.valid_name n1 -> Path.valid_name n2 ->
  Os.resolve (root w) (cwd w) (Path.join D n1)
  = Os.resolve (root w) (cwd w) (Path.join D n2) ->
  n1 = n2.
Proof.
  unfold Os.lookup. intros HD H1 H2.
  destruct (Os.resolve (root w) (cwd w) D) as [e|cs] eqn:Hres; [done|].
  rewrite (resolve_join _ _ _ _ _ _ H1 Hres HD), (resolve_join _ _ _ _ _ _ H2 Hres HD).
  intros [= Heq]. by apply app_inj_tail in Heq as [_ ->].
Qed.

(** C4.  For every directory [D] and suffix filter [E], the Backup Locator
    returns exactly the set of the paths [join D name] of the immediate
    children of [D] whose name ends with [E] (all children when [E] is
    empty): one path for each such child, no two of them equal, and each
    path resolves to the child itself, one name below [D], so nothing from
    inside a subdirectory is in the set. *)
Theorem find_backup_exact (w : world) (D E : string) (es : gmap string node) :
  Os.lookup w D = inr (Dir es) ->
  map_Forall (fun name _ => Path.valid_name name) es ->
  exists (X : gset string) (w' : world) (sel : list string),
    find_backup D E w = (Ok X, w')
    /\ (forall p, p ∈ X <->
          exists name, is_Some (es !! name)
                       /\ (E = EmptyString \/ ends_with name E)
                       /\ p = Path.join D name)
    /\ NoDup sel
    /\ (forall name, name ∈ sel <->
          is_Some (es !! name) /\ (E = EmptyString \/ ends_with name E))
    /\ X = list_to_set (Path.join D <$> sel)
    /\ size X = List.length sel
    /\ (forall name child, es !! name = Some child ->
          Os.lookup w (Path.join D name) = inr child)
    /\ root w' = root w.
Proof.
  intros HD Hvalid.
  set (sel := filter (fun f => selected E f = true) (Fs.names es)).
  assert (forall name, name ∈ sel <->
            is_Some (es !! name) /\ (E = EmptyString \/ ends_with name E)) as Hsel.
  { intros name. unfold sel. rewrite list_elem_of_filter, elem_of_names, selected_spec.
    tauto. }
  assert (NoDup sel) as Hnd.
  { apply NoDup_filter, NoDup_fst_map_to_list. }
  assert (NoDup (Path.join D <$> sel)) as Hnd'.
  { apply NoDup_fmap_2_strong; [|done]. intros n1 n2 H1 H2.
    apply Hsel in H1 as [[c1 H1] _]. apply Hsel in H2 as [[c2 H2] _].
    apply join_inj; [by apply (Hvalid _ _ H1)|by apply (Hvalid _ _ H2)]. }
  exists (list_to_set (Path.join D <$> sel)), (add_records (added_record D <$> sel) w), sel.
  split. { rewrite find_backup_eq, HD. done. }
  split.
  { intros p. rewrite elem_of_list_to_set, list_elem_of_fmap. split.
    - intros (name & -> & Hin). apply Hsel in Hin. naive_solver.
    - intros (name & Hin & HE & ->). exists name. split; [done|]. apply Hsel. done. }
  split; [done|]. split; [done|]. split; [done|].
  split. { rewrite size_list_to_set by done. by rewrite length_fmap. }
  split; [|done].
  intros name child Hc. unfold Os.lookup in *.
  destruct (Os.resolve (root w) (cwd w) D) as [e|cs] eqn:Hres; [done|].
  rewrite (resolve_join _ _ _ _ _ _ (Hvalid _ _ Hc) Hres HD), walk_app, HD.
  simpl. by rewrite Hc.
Qed.

(** * Local Cleanup *)

(** [remove_backup] never raises; afterwards no regular file is at the
    path, every other place of the tree is as before, and no directory
    has been made or removed. *)
Lemma remove_backup_spec p w :
  exists w',
    remove_backup p w = (Ok tt, w')
    /\ cwd w' = cwd w /\ handles w' = handles w /\ remote w' = remote w
    /\ argv w' = argv w
    /\ Fs.is_file (Os.lookup w' p) = false
    /\ (forall cs, Os.resolve (root w) (cwd w) p <> inr cs ->
          Fs.shape_of (Fs.walk (Dir (root w')) cs)
          = Fs.shape_of (Fs.walk (Dir (root w)) cs))
    /\ (Fs.is_file (Os.lookup w p) = false -> root w' = root w)
    /\ Fs.same_dirs (Dir (root w)) (Dir (root w')).
Proof.
  unfold remove_backup, Os.isfile, Os.remove. unfold_monad. cbn.
  unfold Os.lookup. cbn.
  destruct (Os.resolve (root w) (cwd w) p) as [e|cs] eqn:Hres; cbn.
  { eexists. split; [done|]. cbn. rewrite Hres. by split_and!. }
  destruct (Fs.walk (Dir (root w)) cs) as [e|[d|es]] eqn:Hw; cbn.
  - eexists. split; [done|]. cbn. rewrite Hres, Hw. by split_and!.
  - rewrite Hres, Hw. eexists. split; [done|]. cbn.
    assert (cs <> []) as Hne by (by intros ->).
    assert (Fs.same_dirs (Dir (root w)) (Dir (Fs.update (fun _ => None) cs (root w)))) as Hs.
    { rewrite <- modify_dir. apply same_dirs_modify; [by rewrite Hw|done]. }
    do 4 (split; [done|]). split.
    + destruct (Os.resolve (Fs.update _ cs (root w)) (cwd w) p) as [e'|cs'] eqn:Hres';
        [done|].
      apply (resolve_same_dirs _ _ _ _ _ (same_dirs_sym _ _ Hs)) in Hres'.
      assert (cs' = cs) as -> by congruence.
      by rewrite <- modify_dir, (walk_modify_same _ _ _ _ Hne Hw).
    + split; [|done].
      intros cs' Hcs'. rewrite <- modify_dir. apply shape_modify_other.
      * congruence.
      * by rewrite Hw.
      * done.
  - eexists. split; [done|]. cbn. rewrite Hres, Hw. by split_and!.
Qed.

(** Removing one backup brings no regular file into being. *)
Lemma remove_backup_mono p w w' q :
  remove_backup p w = (Ok tt, w') ->
  Fs.is_file (Os.lookup w' q) = true -> Fs.is_file (Os.lookup w q) = true.
Proof.
  intros Hrun. destruct (remove_backup_spec p w)
    as (w1 & Hrun1 & Hcwd & _ & _ & _ & Hgone & Hframe & _ & Hs).
  rewrite Hrun in Hrun1. injection Hrun1 as <-.
  unfold Os.lookup in *. rewrite Hcwd in *.
  destruct (Os.resolve (root w') (cwd w) q) as [e|cs] eqn:Hq; [done|].
  rewrite (resolve_same_dirs _ _ _ _ _ (same_dirs_sym _ _ Hs) Hq).
  destruct (decide (Os.resolve (root w) (cwd w) p = inr cs)) as [Hp|Hp].
  - rewrite (resolve_same_dirs _ _ _ _ _ Hs Hp) in Hgone. by rewrite Hgone.
  - by rewrite !is_file_of_shape, (Hframe cs Hp).
Qed.

(** What [remove_backup] leaves alone: every path that does not stand
    for the place of the file. *)
Lemma remove_backup_frame p w w' q :
  remove_backup p w = (Ok tt, w') ->
  Os.resolve (root w) (cwd w) q <> Os.resolve (root w) (cwd w) p ->
  Fs.shape_of (Os.lookup w' q) = Fs.shape_of (Os.lookup w q).
Proof.
  intros Hrun Hne. destruct (remove_backup_spec p w)
    as (w1 & Hrun1 & Hcwd & _ & _ & _ & _ & Hframe & _ & Hs).
  rewrite Hrun in Hrun1. injection Hrun1 as <-.
  apply shape_lookup_frame; [done|done|].
  intros cs Hcs. apply Hframe. congruence.
Qed.

(** * The History Recorder *)

Lemma text_of_shape w p :
  Os.text w p = match Fs.shape_of (Os.lookup w p) with Fs.IsFile d => d | _ => [] end.
Proof. unfold Os.text. by destruct (Os.lookup w p) as [e|[d|es]]. Qed.

Lemma text_same_tree w w' p :
  root w' = root w -> cwd w' = cwd w -> Os.text w' p = Os.text w p.
Proof. intros Hr Hc. unfold Os.text. by rewrite (lookup_same_tree _ _ _ Hr Hc). Qed.

Lemma appendable_same_tree w w' p :
  root w' = root w -> cwd w' = cwd w -> Os.appendable w p -> Os.appendable w' p.
Proof. intros Hr Hc. unfold Os.appendable. by rewrite Hr, Hc. Qed.

(** A file that can be opened for appending is named by a path that
    resolves. *)
Lemma appendable_resolve w p :
  Os.appendable w p ->
  exists cs, Os.resolve (root w) (cwd w) p = inr cs
             /\ Fs.shape_of (Fs.walk (Dir (root w)) cs) <> Fs.IsDir.
Proof.
  intros [Hsl H]. rewrite (resolve_no_slash _ _ _ Hsl).
  destruct (Os.follow (root w) (cwd w) p) as [e|cs]; [done|]. by exists cs.
Qed.

(** Appending to a file that can be opened: no exception, the text is at
    the end of the file, and nothing else in the tree has changed. *)
Lemma append_text_spec p text w :
  Os.appendable w p ->
  exists w',
    Os.append_text p text w = (Ok tt, w')
    /\ cwd w' = cwd w /\ handles w' = handles w /\ remote w' = remote w
    /\ records w' = records w /\ argv w' = argv w
    /\ Os.text w' p = Os.text w p ++ String.list_byte_of_string text
    /\ Os.appendable w' p
    /\ (forall cs, Os.resolve (root w) (cwd w) p <> inr cs ->
          Fs.shape_of (Fs.walk (Dir (root w')) cs)
          = Fs.shape_of (Fs.walk (Dir (root w)) cs))
    /\ Fs.same_dirs (Dir (root w)) (Dir (root w')).
Proof.
  intros [Hsl Happ]. unfold Os.append_text, Os.appendable, Os.text, Os.lookup. cbn zeta.
  rewrite !(resolve_no_slash _ _ _ Hsl), Hsl.
  destruct (Os.follow (root w) (cwd w) p) as [e|cs] eqn:Hfo; [done|].
  set (bytes := String.list_byte_of_string text).
  destruct (follow_last _ _ _ _ Hsl Hfo) as [Hd|[Hne Hpar]]; [done|].
  destruct (Fs.walk (Dir (root w)) cs) as [e|[d|es]] eqn:Hw; [| |done].
  - pose proof (walk_in_dir _ _ _ Hpar Hne Hw) as ->.
    assert (Fs.same_dirs (Dir (root w))
              (Dir (Fs.update (fun _ => Some (File bytes)) cs (root w)))) as Hs.
    { rewrite <- modify_dir. apply same_dirs_modify; [by rewrite Hw|done]. }
    eexists. split; [done|]. cbn.
    rewrite !(resolve_no_slash _ _ _ Hsl), (follow_same_dirs _ _ _ _ _ Hs Hfo).
    rewrite <- !modify_dir, walk_modify_new by done.
    do 5 (split; [done|]). split; [done|]. split; [done|]. split; [|by rewrite modify_dir].
    intros cs' Hcs'. apply shape_modify_other; [congruence|by rewrite Hw|done].
  - assert (Fs.same_dirs (Dir (root w))
              (Dir (Fs.update (fun _ => Some (File (d ++ bytes))) cs (root w)))) as Hs.
    { rewrite <- modify_dir. apply same_dirs_modify; [by rewrite Hw|done]. }
    eexists. split; [done|]. cbn.
    rewrite !(resolve_no_slash _ _ _ Hsl), (follow_same_dirs _ _ _ _ _ Hs Hfo).
    rewrite <- !modify_dir, (walk_modify_same _ _ _ _ Hne Hw).
    do 5 (split; [done|]). split; [done|]. split; [done|]. split; [|by rewrite modify_dir].
    intros cs' Hcs'. apply shape_modify_other; [congruence|by rewrite Hw|done].
Qed.

(** What an append leaves alone: every path that does not stand for the
    place of the file. *)
Lemma append_text_keeps p text w w' q :
  Os.appendable w p ->
  Os.append_text p text w = (Ok tt, w') ->
  Os.resolve (root w) (cwd w) q <> Os.resolve (root w) (cwd w) p ->
  Fs.shape_of (Os.lookup w' q) = Fs.shape_of (Os.lookup w q).
Proof.
  intros Happ Hrun Hne. destruct (append_text_spec p text w Happ)
    as (w1 & Hrun1 & Hcwd & _ & _ & _ & _ & _ & _ & Hframe & Hs).
  rewrite Hrun in Hrun1. injection Hrun1 as <-.
  apply shape_lookup_frame; [done|done|].
  intros cs Hcs. apply Hframe. congruence.
Qed.

(** A path that finds something resolves. *)
Lemma lookup_resolves w p n :
  Os.lookup w p = inr n -> exists cs, Os.resolve (root w) (cwd w) p = inr cs.
Proof.
  unfold Os.lookup. destruct (Os.resolve (root w) (cwd w) p) as [e|cs]; [done|]. eauto.
Qed.

Lemma is_file_resolves w p :
  Fs.is_file (Os.lookup w p) = true -> exists cs, Os.resolve (root w) (cwd w) p = inr cs.
Proof.
  destruct (Os.lookup w p) as [e|n] eqn:H; [done|]. intros _. by apply (lookup_resolves w p n).
Qed.


(** * The empty run *)

Lemma list_to_set_nil (l : list string) : list_to_set l =@{gset string} ∅ -> l = [].
Proof.
  destruct l as [|x l]; [done|]. intros H.
  assert (x ∈ (∅ : gset string)) as Hx; [|set_solver].
  rewrite <- H. set_solver.
Qed.

Lemma parse_args_ok w :
  mode (argv w) = "glacier" \/ mode (argv w) = "s3" ->
  parse_args w = (Ok (argv w), w).
Proof. unfold parse_args. by intros [-> | ->]. Qed.

Section Runs.

Context (env : environment).

(** C5.  In every run in which the Locator returns the empty set, the
    process logs a warning and exits with status 1, and no call to AWS is
    made (nor is the tree or any file object touched). *)
Theorem no_backups_exit_1 (w : world) :
  mode (argv w) = "glacier" \/ mode (argv w) = "s3" ->
  (find_backup (backup_dir (argv w)) (backup_ext (argv w)) w).1 = Ok ∅ ->
  exists w',
    run env w = (1%Z, w')
    /\ records w' = records w ++
         [(INFO, "Start");
          (WARNING, "No backups in " +:+ backup_dir (argv w) +:+ " found. Exit.");
          (INFO, "Stop")]
    /\ remote w' = remote w
    /\ root w' = root w
    /\ handles w' = handles w.
Proof.
  intros Hmode Hempty. rewrite find_backup_eq in Hempty.
  unfold run, main. unfold mbind at 1. unfold M_bind at 1. unfold log at 1.
  unfold mbind at 1. unfold M_bind at 1.
  rewrite parse_args_ok by done. cbn [argv add_records].
  unfold mbind at 1. unfold M_bind at 1.
  rewrite find_backup_eq, lookup_add_records.
  destruct (Os.lookup w (backup_dir (argv w))) as [e|[d|es]]; try done.
  cbn zeta in *. simpl in Hempty. injection Hempty as Hempty.
  apply list_to_set_nil, fmap_nil_inv in Hempty. rewrite Hempty. simpl.
  unfold_monad. simpl. eexists. split; [done|]. simpl.
  by rewrite <- !(assoc_L (++)).
Qed.

(** * The bucket backend *)

(** [upload_to_s3] when the call returns or the service reports an error:
    one request, no exception, the tree untouched. *)
Lemma upload_to_s3_spec access secret bucket p w :
  service_outcome (upload_file env (remote w) (s3_request_for access secret bucket p)) ->
  exists w',
    upload_to_s3 env access secret bucket p w = (Ok tt, w')
    /\ root w' = root w /\ cwd w' = cwd w
    /\ remote w' = remote w ++
         [S3Call (s3_request_for access secret bucket p)
            (upload_file env (remote w) (s3_request_for access secret bucket p))].
Proof.
  unfold upload_to_s3, s3_upload_file, s3_request_for. unfold_monad. cbn.
  destruct (upload_file env (remote w) _) as [[]|[]]; cbn; try done; eauto.
Qed.

Lemma s3_step_spec bucket access secret p w :
  service_outcome (upload_file env (remote w) (s3_request_for access secret bucket p)) ->
  exists w' out,
    s3_step env bucket access secret p w = (Ok tt, w')
    /\ cwd w' = cwd w
    /\ remote w' = remote w ++ [S3Call (s3_request_for access secret bucket p) out]
    /\ Fs.is_file (Os.lookup w' p) = false
    /\ (forall q, Fs.is_file (Os.lookup w' q) = true -> Fs.is_file (Os.lookup w q) = true).
Proof.
  intros Hout. destruct (upload_to_s3_spec _ _ _ _ _ Hout) as (w1 & Hup & Hroot & Hcwd & Hrem).
  unfold s3_step. unfold mbind at 1. unfold M_bind at 1. rewrite Hup.
  unfold mbind at 1. unfold M_bind at 1. unfold log at 1.
  set (w2 := add_records _ w1).
  destruct (remove_backup_spec p w2) as (w3 & Hrm & Hcwd3 & _ & Hrem3 & _ & Hgone & _).
  exists w3, (upload_file env (remote w) (s3_request_for access secret bucket p)).
  split; [done|]. split; [by rewrite Hcwd3|]. split; [by rewrite Hrem3|].
  split; [done|]. intros q Hq.
  apply (remove_backup_mono _ _ _ _ Hrm) in Hq.
  by rewrite <- (lookup_same_tree w w1) by done.
Qed.

Lemma s3_loop_spec bucket access secret (l : list string) w :
  (forall calls req, service_outcome (upload_file env calls req)) ->
  exists w' cs,
    for_each l (s3_step env bucket access secret) w = (Ok tt, w')
    /\ cwd w' = cwd w
    /\ remote w' = remote w ++ cs
    /\ (forall q, Fs.is_file (Os.lookup w' q) = true -> Fs.is_file (Os.lookup w q) = true)
    /\ (forall p, p ∈ l ->
          Fs.is_file (Os.lookup w' p) = false
          /\ exists out, S3Call (s3_request_for access secret bucket p) out ∈ cs).
Proof.
  intros Henv. revert w. induction l as [|p l IH]; intros w.
  - exists w, []. simpl. rewrite (right_id_L [] (++)).
    do 4 (split; [done|]). by intros ? ?%elem_of_nil.
  - destruct (s3_step_spec bucket access secret p w (Henv _ _))
      as (w1 & out & Hstep & Hcwd1 & Hrem1 & Hgone1 & Hmono1).
    destruct (IH w1) as (w2 & cs & Hloop & Hcwd2 & Hrem2 & Hmono2 & Hall).
    exists w2, (S3Call (s3_request_for access secret bucket p) out :: cs).
    split. { cbn [for_each]. unfold mbind, M_bind. by rewrite Hstep. }
    split; [congruence|].
    split. { rewrite Hrem2, Hrem1. by rewrite <- (assoc_L (++)). }
    split. { intros q Hq. by apply Hmono1, Hmono2. }
    intros q [->|Hq]%elem_of_cons.
    + split.
      * destruct (Fs.is_file (Os.lookup w2 p)) eqn:E; [|done].
        apply Hmono2 in E. congruence.
      * exists out. by left.
    + destruct (Hall q Hq) as [Hg [out' Hin]]. split; [done|].
      exists out'. by right.
Qed.




(** C9.  The request [upload_to_s3] makes for a local file names the
    object by the base name of the file: the part of the path after its
    last slash, which holds no slash. *)
Theorem s3_object_name_is_basename (access secret bucket file_name : string) (w : world) :
  (exists out,
     remote (upload_to_s3 env access secret bucket file_name w).2
     = remote w ++
         [S3Call {| s3_access := access; s3_secret := secret; Filename := file_name;
                    Bucket := bucket; Key := Path.basename file_name |} out])
  /\ Str.contains Str.slash (Path.basename file_name) = false
  /\ exists dir,
       file_name = dir +:+ Path.basename file_name
       /\ (dir = EmptyString \/ Str.endswith dir "/" = true).
Proof.
  split.
  - unfold upload_to_s3, s3_upload_file. unfold_monad. cbn.
    destruct (upload_file env (remote w) _) as [[]|e] eqn:E; cbn.
    + by eexists.
    + destruct (is_ClientError e); cbn; by eexists.
  - destruct (basename_spec file_name) as (dir & H1 & H2 & H3). eauto.
Qed.

(** * The archive-vault backend *)

Lemma lookup_new_handle (hs : list file_object) fo :
  (hs ++ [fo]) !! List.length hs = Some fo.
Proof. by rewrite list_lookup_middle. Qed.

Lemma close_new_handle (hs : list file_object) fo :
  alter Os.close_object (List.length hs) (hs ++ [fo]) = hs ++ [Os.close_object fo].
Proof.
  rewrite <- (Nat.add_0_r (List.length hs)). by rewrite alter_app_r.
Qed.

(** [upload_to_glacier] on a path, case by case: what [open] finds, and
    how the call ends. *)
Lemma upload_to_glacier_str access secret vault p w :
  upload_to_glacier env access secret vault (SStr p) w
  = match Os.lookup w p with
    | inr (File d) =>
        let fo := {| fo_name := p; fo_data := d; fo_closed := false |} in
        let req := glacier_request_for access secret vault p d in
        let out := upload_archive env (remote w) req in
        let w1 := add_call (GlacierCall req out) (set_handles (handles w ++ [fo]) w) in
        match out with
        | Ok a => (Ok (Some a), set_handles (handles w ++ [Os.close_object fo]) w1)
        | Raise (ClientError msg) =>
            (Raise (UnboundLocalError "archive"),
             set_handles (handles w ++ [Os.close_object fo])
               (add_records [(ERROR, p +:+ " was not uploaded to " +:+ vault)]
                  (add_records [(DEBUG, msg)] w1)))
        | Raise e => (Raise e, w1)
        end
    | inr (Dir _) => (Raise (IsADirectoryError p), w)
    | inl ENOENT => (Ok None, add_records [(ERROR, "Can't open src_data")] w)
    | inl e => (Raise (Os.oserror e p), w)
    end.
Proof.
  unfold upload_to_glacier, read_object_data, Os.open_rb, glacier_upload_archive,
    glacier_request_for.
  unfold_monad. cbn.
  destruct (Os.lookup w p) as [[]|[d|es]]; cbn; try done.
  rewrite lookup_new_handle. cbn.
  destruct (upload_archive env (remote w) _) as [a|[]]; cbn; try done.
  - unfold Os.close. cbn. by rewrite close_new_handle.
  - unfold Os.close. cbn. by rewrite close_new_handle.
Qed.



(** A service error leaves [archive] unbound: the function raises. *)
Lemma upload_to_glacier_client_error access secret vault p d msg w :
  Os.lookup w p = inr (File d) ->
  upload_archive env (remote w) (glacier_request_for access secret vault p d)
  = Raise (ClientError msg) ->
  (upload_to_glacier env access secret vault (SStr p) w).1
  = Raise (UnboundLocalError "archive").
Proof.
  intros Hopen Hout. rewrite upload_to_glacier_str, Hopen. cbn zeta. by rewrite Hout.
Qed.

(** Removing a backup keeps the history file as it is, when the two are
    different places. *)
Lemma remove_backup_keeps_history f hist w w' :
  remove_backup f w = (Ok tt, w') ->
  Os.resolve (root w) (cwd w) f <> Os.resolve (root w) (cwd w) hist ->
  Os.appendable w hist ->
  cwd w' = cwd w /\ remote w' = remote w
  /\ Os.appendable w' hist /\ Os.text w' hist = Os.text w hist.
Proof.
  intros Hrun Hne Happ.
  destruct (remove_backup_spec f w)
    as (w1 & Hrun1 & Hcwd & _ & Hrem & _ & _ & Hframe & _ & Hs).
  rewrite Hrun in Hrun1. injection Hrun1 as <-.
  split; [done|]. split; [done|].
  destruct (appendable_resolve _ _ Happ) as (csh & Hh & Hnd).
  assert (Fs.shape_of (Fs.walk (Dir (root w')) csh)
          = Fs.shape_of (Fs.walk (Dir (root w)) csh)) as Hsame.
  { apply Hframe. congruence. }
  split.
  - destruct Happ as [Hsl _]. split; [done|]. rewrite Hcwd.
    rewrite (resolve_no_slash _ _ _ Hsl) in Hh.
    rewrite (follow_same_dirs _ _ _ _ _ Hs Hh). by rewrite Hsame.
  - rewrite !text_of_shape, (shape_lookup_frame w w' hist Hcwd Hs); [done|].
    intros cs Hcs. by assert (cs = csh) as -> by congruence.
Qed.

Lemma successes_one req a :
  successes [GlacierCall req (Ok a)] = if dict_truthy a then [a] else [].
Proof. unfold successes. simpl. by destruct (dict_truthy a). Qed.

Lemma successes_raise req e : successes [GlacierCall req (Raise e)] = [].
Proof. done. Qed.

(** One turn of the Glacier loop, seen from the history file: the text of
    the upload is added when the upload reported success, and only then. *)
Lemma glacier_step_history vault access secret hist f w :
  Os.appendable w hist ->
  Os.resolve (root w) (cwd w) f <> Os.resolve (root w) (cwd w) hist ->
  exists r w' cs,
    glacier_step env vault access secret hist f w = (r, w')
    /\ cwd w' = cwd w
    /\ remote w' = remote w ++ cs
    /\ Os.appendable w' hist
    /\ Os.text w' hist = Os.text w hist ++ List.concat (history_entry <$> successes cs)
    /\ Fs.same_dirs (Dir (root w)) (Dir (root w')).
Proof.
  intros Happ Hne. unfold glacier_step. unfold mbind at 1. unfold M_bind at 1.
  rewrite upload_to_glacier_str.
  destruct (Os.lookup w f) as [e|[d|es]] eqn:Hf.
  - exists (match e with ENOENT => Ok tt | _ => Raise (Os.oserror e f) end),
      (match e with ENOENT => add_records [(ERROR, "Can't open src_data")] w | _ => w end), [].
    destruct e; split_and!; simpl; rewrite ?(right_id_L [] (++)); done.
  - cbn zeta.
    set (req := glacier_request_for access secret vault f d).
    set (out := upload_archive env (remote w) req).
    destruct out as [a|e] eqn:Hout.
    + destruct (dict_truthy a) eqn:Ha.
      * set (w2 := set_handles _ (add_call _ _)).
        assert (Os.appendable w2 hist) as Happ2 by done.
        unfold save_history. unfold mbind at 1. unfold M_bind at 1.
        destruct (append_text_spec hist (Json.dumps (dict_get a "archiveId")) w2 Happ2)
          as (w3 & Hrun3 & Hcwd3 & _ & Hrem3 & _ & _ & Htext3 & Happ3 & _ & Hs3).
        rewrite Hrun3. unfold mbind at 1. unfold M_bind at 1. unfold log at 1.
        set (w4 := add_records _ w3).
        destruct (remove_backup_spec f w4) as (w5 & Hrun5 & _ & _ & _ & _ & _ & _ & _ & Hs5).
        destruct (appendable_resolve _ _ Happ) as (csh & Hh & _).
        destruct (remove_backup_keeps_history f hist w4 w5 Hrun5)
          as (Hcwd5 & Hrem5 & Happ5 & Htext5).
        { change (cwd w4) with (cwd w3). rewrite Hcwd3.
          by apply (resolve_neq_same_dirs (root w) _ _ _ _ csh). }
        { done. }
        exists (Ok tt), w5, [GlacierCall req (Ok a)].
        split; [done|]. split.
        { rewrite Hcwd5. change (cwd w4) with (cwd w3). by rewrite Hcwd3. }
        split.
        { rewrite Hrem5. change (remote w4) with (remote w3). by rewrite Hrem3. }
        split; [done|]. split.
        { rewrite Htext5. change (Os.text w4 hist) with (Os.text w3 hist).
          rewrite Htext3. change (Os.text w2 hist) with (Os.text w hist).
          rewrite successes_one, Ha.
          change (history_entry <$> [a]) with [history_entry a].
          change (List.concat [history_entry a]) with (history_entry a ++ []).
          by rewrite (right_id_L [] (++)). }
        by apply (same_dirs_trans _ (Dir (root w3))).
      * eexists (Ok tt), _, [GlacierCall req (Ok a)].
        split; [done|]. rewrite successes_one, Ha.
        split_and!; simpl; rewrite ?(right_id_L [] (++)); done.
    + exists (Raise (match e with ClientError _ => UnboundLocalError "archive" | _ => e end)).
      destruct e; eexists _, [GlacierCall req _];
        (split; [done|]); split_and!; rewrite ?successes_raise; simpl;
        rewrite ?(right_id_L [] (++)); done.
  - exists (Raise (IsADirectoryError f)), w, [].
    split_and!; simpl; rewrite ?(right_id_L [] (++)); done.
Qed.

Lemma successes_app cs1 cs2 : successes (cs1 ++ cs2) = successes cs1 ++ successes cs2.
Proof. apply omap_app. Qed.

Lemma glacier_loop_history vault access secret hist (l : list string) w :
  Os.appendable w hist ->
  (forall f, f ∈ l -> Os.resolve (root w) (cwd w) f <> Os.resolve (root w) (cwd w) hist) ->
  exists r w' cs,
    for_each l (glacier_step env vault access secret hist) w = (r, w')
    /\ remote w' = remote w ++ cs
    /\ Os.text w' hist = Os.text w hist ++ List.concat (history_entry <$> successes cs).
Proof.
  revert w. induction l as [|f l IH]; intros w Happ Hne.
  - exists (Ok tt), w, []. split_and!; simpl; rewrite ?(right_id_L [] (++)); done.
  - destruct (glacier_step_history vault access secret hist f w Happ)
      as (r1 & w1 & cs1 & Hstep & Hcwd1 & Hrem1 & Happ1 & Htext1 & Hs1).
    { apply Hne. by left. }
    cbn [for_each]. unfold mbind, M_bind. rewrite Hstep.
    destruct r1 as [[]|e].
    + destruct (IH w1 Happ1) as (r2 & w2 & cs2 & Hloop & Hrem2 & Htext2).
      { intros g Hg. rewrite Hcwd1.
        destruct (appendable_resolve _ _ Happ) as (csh & Hh & _).
        apply (resolve_neq_same_dirs (root w) _ _ _ _ csh); [done|done|].
        apply Hne. by right. }
      exists r2, w2, (cs1 ++ cs2). split; [done|].
      split. { by rewrite Hrem2, Hrem1, (assoc_L (++)). }
      by rewrite Htext2, Htext1, successes_app, fmap_app, concat_app, (assoc_L (++)).
    + by exists (Raise e), w1, cs1.
Qed.

(** [json.dump] writes a string of plain characters between two double
    quotes, as it is. *)
Lemma escape_plain s : plain s -> Json.escape s = s.
Proof.
  unfold plain. induction s as [|c s IH]; [done|]. cbn [Str.all Json.escape].
  intros [Hc Hs]%andb_true_iff. rewrite (IH Hs).
  enough (Json.escape_char c = String c EmptyString) as -> by done.
  unfold plain_char in Hc. cbn zeta in Hc. unfold Json.escape_char. cbn zeta.
  repeat (apply andb_true_iff in Hc as [Hc ?]).
  repeat match goal with
         | H : negb _ = true |- _ => apply negb_true_iff in H
         | H : (_ =? _)%nat = false |- _ => rewrite H
         end.
  apply Nat.leb_le in Hc. assert (nat_of_ascii c <= 126)%nat as H126 by (by apply Nat.leb_le).
  repeat match goal with
         | |- context [(nat_of_ascii c =? ?k)%nat] =>
             rewrite (proj2 (Nat.eqb_neq (nat_of_ascii c) k)) by lia
         end.
  by rewrite (proj2 (Nat.leb_le 32 _) Hc), (proj2 (Nat.leb_le _ 126) H126).
Qed.

(** C7 (amended).  After a run in Glacier mode whose history file can be
    opened for appending and is not one of the files being uploaded, the
    history file holds what it held before, followed by one entry for
    each upload that reported success, in the order of the uploads, with
    nothing between the entries and nothing else.  The entry of a
    response is the JSON text of its archive id: an id made of plain
    characters between two double quotes, and [null] when the response
    holds no id. *)
Theorem history_holds_archive_ids (vault access secret : string) (X : gset string)
    (hist : string) (w : world) :
  Os.appendable w hist ->
  (forall f, f ∈ X ->
     Os.resolve (root w) (cwd w) f <> Os.resolve (root w) (cwd w) hist) ->
  let w' := (upload_list_to_glacier env vault access secret X hist w).2 in
  Os.text w' hist
  = Os.text w hist ++ List.concat (history_entry <$> successes (new_calls w w'))
  /\ (forall a id, a !! "archiveId" = Some (PStr id) -> plain id ->
        history_entry a = String.list_byte_of_string (Json.quote +:+ id +:+ Json.quote))
  /\ (forall a, a !! "archiveId" = None ->
        history_entry a = String.list_byte_of_string "null").
Proof.
  intros Happ Hne. cbn zeta. split; [|split].
  - unfold upload_list_to_glacier.
    destruct (glacier_loop_history vault access secret hist (set_order env X) w Happ)
      as (r & w1 & cs & Hrun & Hrem & Htext).
    { intros f Hf. apply Hne. rewrite (set_order_perm env X) in Hf.
      by apply elem_of_elements in Hf. }
    rewrite Hrun. cbn [snd]. by rewrite (new_calls_app _ _ _ Hrem).
  - intros a id Ha Hid. unfold history_entry, dict_get. rewrite Ha. cbn [Json.dumps].
    by rewrite (escape_plain id Hid).
  - intros a Ha. unfold history_entry, dict_get. by rewrite Ha.
Qed.

(** In archive-vault mode a regular file is gone after its turn of the
    loop exactly when its upload returned a response with a true truth
    value. *)
Lemma glacier_step_deletes_iff vault access secret hist f d w :
  Os.lookup w f = inr (File d) ->
  Os.appendable w hist ->
  Fs.is_file (Os.lookup (glacier_step env vault access secret hist f w).2 f) = false
  <-> exists a,
        upload_archive env (remote w) (glacier_request_for access secret vault f d) = Ok a
        /\ dict_truthy a = true.
Proof.
  intros Hf Happ. unfold glacier_step. unfold mbind at 1. unfold M_bind at 1.
  rewrite upload_to_glacier_str, Hf. cbn zeta.
  set (req := glacier_request_for access secret vault f d).
  destruct (upload_archive env (remote w) req) as [a|e] eqn:Hout.
  - destruct (dict_truthy a) eqn:Ha.
    + set (w2 := set_handles _ (add_call _ _)).
      assert (Os.appendable w2 hist) as Happ2 by done.
      unfold save_history. unfold mbind at 1. unfold M_bind at 1.
      destruct (append_text_spec hist (Json.dumps (dict_get a "archiveId")) w2 Happ2)
        as (w3 & Hrun3 & _).
      rewrite Hrun3. unfold mbind at 1. unfold M_bind at 1. unfold log at 1.
      destruct (remove_backup_spec f (add_records [(INFO, "File " +:+ f +:+ " added to " +:+ vault)] w3))
        as (w5 & Hrun5 & _ & _ & _ & _ & Hgone & _).
      rewrite Hrun5. cbn [snd]. split; [|done]. intros _. by exists a.
    + cbn [snd]. change (Os.lookup _ f) with (Os.lookup w f). rewrite Hf. simpl.
      split; [done|]. intros (a' & [= <-] & Ha'). congruence.
  - assert (Fs.is_file (Os.lookup w f) = true) as Hfile by (by rewrite Hf).
    split; [|by intros (a & ? & _)].
    destruct e; cbn [snd]; change (Os.lookup _ f) with (Os.lookup w f); congruence.
Qed.

(** One turn of the Glacier loop on a regular file, whatever the service
    answers, with a history file that can be written and is another
    place: the call is made; the file is removed exactly when a response
    with a true truth value came back; an exception leaves the tree as it
    was; every path that stands for another place than the file and the
    history finds what it found before. *)
Lemma glacier_step_cases vault access secret hist f d w :
  Os.lookup w f = inr (File d) ->
  Os.appendable w hist ->
  Os.resolve (root w) (cwd w) f <> Os.resolve (root w) (cwd w) hist ->
  exists r w',
    glacier_step env vault access secret hist f w = (r, w')
    /\ cwd w' = cwd w
    /\ remote w' = remote w ++
         [GlacierCall (glacier_request_for access secret vault f d)
            (upload_archive env (remote w) (glacier_request_for access secret vault f d))]
    /\ Os.appendable w' hist
    /\ Fs.same_dirs (Dir (root w)) (Dir (root w'))
    /\ (forall q, Os.resolve (root w) (cwd w) q <> Os.resolve (root w) (cwd w) f ->
          Os.resolve (root w) (cwd w) q <> Os.resolve (root w) (cwd w) hist ->
          Fs.shape_of (Os.lookup w' q) = Fs.shape_of (Os.lookup w q))
    /\ match upload_archive env (remote w) (glacier_request_for access secret vault f d) with
       | Ok a => r = Ok tt /\ Fs.is_file (Os.lookup w' f) = negb (dict_truthy a)
       | Raise e => (exists e', r = Raise e') /\ root w' = root w
       end.
Proof.
  intros Hf Happ Hne. unfold glacier_step. unfold mbind at 1. unfold M_bind at 1.
  rewrite upload_to_glacier_str, Hf. cbn zeta.
  set (req := glacier_request_for access secret vault f d).
  destruct (upload_archive env (remote w) req) as [a|e] eqn:Hout.
  - destruct (dict_truthy a) eqn:Ha.
    + set (w2 := set_handles _ (add_call _ _)).
      assert (Os.appendable w2 hist) as Happ2 by done.
      destruct (lookup_resolves _ _ _ Hf) as (csf & Hcsf).
      destruct (appendable_resolve _ _ Happ) as (csh & Hcsh & _).
      unfold save_history. unfold mbind at 1. unfold M_bind at 1.
      destruct (append_text_spec hist (Json.dumps (dict_get a "archiveId")) w2 Happ2)
        as (w3 & Hrun3 & Hcwd3 & _ & Hrem3 & _ & _ & _ & Happ3 & _ & Hs3).
      rewrite Hrun3. unfold mbind at 1. unfold M_bind at 1. unfold log at 1.
      set (w4 := add_records _ w3).
      destruct (remove_backup_spec f w4)
        as (w5 & Hrun5 & Hcwd5 & _ & Hrem5 & _ & Hgone & _ & _ & Hs5).
      assert (Os.resolve (root w4) (cwd w4) f <> Os.resolve (root w4) (cwd w4) hist) as Hne4.
      { change (cwd w4) with (cwd w3). rewrite Hcwd3.
        by apply (resolve_neq_same_dirs (root w) _ _ _ _ csh). }
      destruct (remove_backup_keeps_history f hist w4 w5 Hrun5 Hne4) as (_ & _ & Happ5 & _).
      { done. }
      exists (Ok tt), w5. split; [done|].
      assert (cwd w5 = cwd w) as Hcwd.
      { rewrite Hcwd5. change (cwd w4) with (cwd w3). by rewrite Hcwd3. }
      split; [done|]. split.
      { rewrite Hrem5. change (remote w4) with (remote w3). by rewrite Hrem3. }
      split; [done|]. split; [by apply (same_dirs_trans _ (Dir (root w3)))|].
      split; [|done].
      intros q Hqf Hqh.
      rewrite (remove_backup_frame f w4 w5 q Hrun5).
      * change (Os.lookup w4 q) with (Os.lookup w3 q).
        by rewrite (append_text_keeps hist _ w2 w3 q Happ2 Hrun3).
      * change (cwd w4) with (cwd w3). rewrite Hcwd3.
        by apply (resolve_neq_same_dirs (root w) _ _ _ _ csf).
    + eexists (Ok tt), _. split; [done|]. split_and!; try done.
      change (Os.lookup _ f) with (Os.lookup w f). by rewrite Hf.
  - destruct e; eexists _, _; (split; [done|]); split_and!; eauto; done.
Qed.




(** A bucket-mode run over a non-empty set ends with status 0 when every
    upload returns or raises [ClientError]. *)
Lemma bucket_run_exit_0 w :
  mode (argv w) = "s3" ->
  (forall calls req, service_outcome (upload_file env calls req)) ->
  (exists X, (find_backup (backup_dir (argv w)) (backup_ext (argv w)) w).1 = Ok X
             /\ X <> ∅) ->
  (run env w).1 = 0%Z.
Proof.
  intros Hmode Henv (X & HX & Hne). rewrite find_backup_eq in HX.
  unfold run, main. unfold mbind at 1. unfold M_bind at 1. unfold log at 1.
  unfold mbind at 1. unfold M_bind at 1.
  rewrite parse_args_ok by (by right). cbn [argv add_records].
  unfold mbind at 1. unfold M_bind at 1.
  rewrite find_backup_eq, lookup_add_records.
  destruct (Os.lookup w (backup_dir (argv w))) as [e|[d|es]]; try done.
  cbn zeta in *. simpl in HX. injection HX as HX. rewrite HX.
  rewrite bool_decide_eq_false_2 by done.
  unfold mbind at 1. unfold M_bind at 1. unfold mret at 1. unfold M_ret at 1.
  rewrite Hmode. cbn [String.eqb Ascii.eqb Bool.eqb].
  unfold mbind at 1. unfold M_bind at 1. unfold upload_list_to_s3.
  match goal with |- context [for_each ?l ?b ?w0] =>
    destruct (s3_loop_spec (bucket_name (argv w)) (access_key (argv w))
                (secret_key (argv w)) l w0 Henv) as (w' & cs & Hrun & _)
  end.
  rewrite Hrun. done.
Qed.

End Runs.

(** * The properties on the example worlds *)

(** C4 on the example tree: [/data/backup] with two backups, a text file
    and a subdirectory. *)
Lemma find_backup_exact_witness :
  let w := Examples.start "s3" "/data/backup" in
  Os.lookup w "/data/backup" = inr (Dir Examples.backups)
  /\ map_Forall (fun name _ => Path.valid_name name) Examples.backups
  /\ exists (X : gset string) (w' : world) (sel : list string),
    find_backup "/data/backup" ".back.7z" w = (Ok X, w')
    /\ (forall p, p ∈ X <->
          exists name, is_Some (Examples.backups !! name)
                       /\ (".back.7z" = EmptyString \/ ends_with name ".back.7z")
                       /\ p = Path.join "/data/backup" name)
    /\ NoDup sel
    /\ (forall name, name ∈ sel <->
          is_Some (Examples.backups !! name)
          /\ (".back.7z" = EmptyString \/ ends_with name ".back.7z"))
    /\ X = list_to_set (Path.join "/data/backup" <$> sel)
    /\ size X = List.length sel
    /\ (forall name child, Examples.backups !! name = Some child ->
          Os.lookup w (Path.join "/data/backup" name) = inr child)
    /\ root w' = root w.
Proof.
  assert (Os.lookup (Examples.start "s3" "/data/backup") "/data/backup"
          = inr (Dir Examples.backups)) as H1.
  { vm_compute. reflexivity. }
  assert (map_Forall (fun name _ => Path.valid_name name) Examples.backups) as H2.
  { apply (bool_decide_unpack _). vm_compute. exact I. }
  split; [exact H1|]. split; [exact H2|].
  exact (find_backup_exact _ "/data/backup" ".back.7z" _ H1 H2).
Defined.

(** Scenario 1 of the specification. *)
Example locator_scenario :
  (find_backup "/data/backup" ".back.7z" (Examples.start "s3" "/data/backup")).1
  = Ok {[ "/data/backup/a.back.7z"; "/data/backup/b.back.7z" ]}.
Proof. vm_compute. reflexivity. Qed.




(** C7 as it is stated fails.  With a history file in a directory that
    does not exist, one upload reports success and no history file is
    written.  With the history file among the located files, two uploads
    report success and the history file holds one entry at the end: it
    was uploaded and removed after the first. *)
Lemma history_misses_archive_ids :
  let hist := "/data/logs/history.json" in
  let w := Examples.start_with "glacier" "/data/backup" ".back.7z" hist in
  let w' := (run Examples.accepting w).2 in
  let v := Examples.start_with "glacier" "/srv/dump" "" "/srv/dump/history.json" in
  let v' := (run Examples.accepting v).2 in
  List.length (successes (new_calls w w')) = 1%nat
  /\ Os.lookup w' hist = inl ENOENT
  /\ Os.text w' hist
     <> Os.text w hist ++ List.concat (history_entry <$> successes (new_calls w w'))
  /\ List.length (successes (new_calls v v')) = 2%nat
  /\ (run Examples.accepting v).1 = 0%Z
  /\ String.string_of_list_byte (Os.text v' "/srv/dump/history.json")
     = Json.quote +:+ "XYZ1" +:+ Json.quote
  /\ Os.text v' "/srv/dump/history.json"
     <> Os.text v "/srv/dump/history.json"
        ++ List.concat (history_entry <$> successes (new_calls v v')).
Proof.
  cbn zeta. split_and!; try (vm_compute; reflexivity); vm_compute; discriminate.
Qed.

(** C2.  When the service raises an error, [upload_to_glacier] logs it and
    then, instead of returning [None], raises [UnboundLocalError]: the
    loop of the caller ends on the first file and the second one is never
    tried. *)
Theorem glacier_client_error_escapes :
  let w := Examples.start "glacier" "/data/backup" in
  let r := upload_to_glacier Examples.refusing "Z123456" "A123456" "some Glacier vault"
             (SStr "/data/backup/a.back.7z") w in
  upload_archive Examples.refusing (remote w)
    (glacier_request_for "Z123456" "A123456" "some Glacier vault" "/data/backup/a.back.7z"
       (String.list_byte_of_string "AAAA"))
  = Raise (ClientError "An error occurred (AccessDenied)")
  /\ r.1 = Raise (UnboundLocalError "archive")
  /\ records r.2
     = [(DEBUG, "An error occurred (AccessDenied)");
        (ERROR, "/data/backup/a.back.7z was not uploaded to some Glacier vault")]
  /\ (for_each ["/data/backup/a.back.7z"; "/data/backup/b.back.7z"]
        (glacier_step Examples.refusing "some Glacier vault" "Z123456" "A123456"
           "history.json") w).1
     = Raise (UnboundLocalError "archive")
  /\ List.length
       (remote (for_each ["/data/backup/a.back.7z"; "/data/backup/b.back.7z"]
          (glacier_step Examples.refusing "some Glacier vault" "Z123456" "A123456"
             "history.json") w).2)
     = 1%nat.
Proof. cbn zeta. split_and!; vm_compute; reflexivity. Qed.

(** C3.  A Glacier run over two located files in which the service refuses
    the upload: the process ends with status 1 on the unbound variable,
    after one call, and not with status 0 after both. *)
Theorem glacier_run_all_failed_exit_1 :
  let w := Examples.start "glacier" "/data/backup" in
  let w' := (run Examples.refusing w).2 in
  (find_backup "/data/backup" ".back.7z" w).1
  = Ok {[ "/data/backup/a.back.7z"; "/data/backup/b.back.7z" ]}
  /\ (run Examples.refusing w).1 = 1%Z
  /\ (main Examples.refusing w).1 = Raise (UnboundLocalError "archive")
  /\ List.length (remote w') = 1%nat
  /\ last (records w')
     = Some (ERROR, "/data/backup/a.back.7z was not uploaded to some Glacier vault").
Proof. cbn zeta. split_and!; vm_compute; reflexivity. Qed.

(** C5 on the empty directory [/data/empty]. *)
Lemma no_backups_exit_1_witness :
  let w := Examples.start "s3" "/data/empty" in
  (mode (argv w) = "glacier" \/ mode (argv w) = "s3")
  /\ (find_backup (backup_dir (argv w)) (backup_ext (argv w)) w).1 = Ok ∅
  /\ exists w',
    run Examples.accepting w = (1%Z, w')
    /\ records w' = records w ++
         [(INFO, "Start");
          (WARNING, "No backups in " +:+ backup_dir (argv w) +:+ " found. Exit.");
          (INFO, "Stop")]
    /\ remote w' = remote w
    /\ root w' = root w
    /\ handles w' = handles w.
Proof.
  cbn zeta.
  assert (mode (argv (Examples.start "s3" "/data/empty")) = "glacier"
          \/ mode (argv (Examples.start "s3" "/data/empty")) = "s3") as H1.
  { right. reflexivity. }
  assert ((find_backup (backup_dir (argv (Examples.start "s3" "/data/empty")))
             (backup_ext (argv (Examples.start "s3" "/data/empty")))
             (Examples.start "s3" "/data/empty")).1 = Ok ∅) as H2.
  { vm_compute. reflexivity. }
  split; [exact H1|]. split; [exact H2|].
  exact (no_backups_exit_1 Examples.accepting _ H1 H2).
Defined.

(** C7 with a service that accepts every upload. *)
Lemma history_holds_archive_ids_witness :
  let w := Examples.start "glacier" "/data/backup" in
  let X : gset string := {[ "/data/backup/a.back.7z"; "/data/backup/b.back.7z" ]} in
  Os.appendable w "history.json"
  /\ (forall f, f ∈ X ->
        Os.resolve (root w) (cwd w) f <> Os.resolve (root w) (cwd w) "history.json")
  /\ let w' := (upload_list_to_glacier Examples.accepting "some Glacier vault"
                  "Z123456" "A123456" X "history.json" w).2 in
     Os.text w' "history.json"
     = Os.text w "history.json"
       ++ List.concat (history_entry <$> successes (new_calls w w'))
     /\ (forall a id, a !! "archiveId" = Some (PStr id) -> plain id ->
           history_entry a = String.list_byte_of_string (Json.quote +:+ id +:+ Json.quote))
     /\ (forall a, a !! "archiveId" = None ->
           history_entry a = String.list_byte_of_string "null").
Proof.
  cbn zeta.
  assert (Os.appendable (Examples.start "glacier" "/data/backup") "history.json") as H1.
  { vm_compute. split; [reflexivity|discriminate]. }
  assert (forall f, f ∈ ({[ "/data/backup/a.back.7z"; "/data/backup/b.back.7z" ]} : gset string) ->
            Os.resolve (root (Examples.start "glacier" "/data/backup"))
              (cwd (Examples.start "glacier" "/data/backup")) f
            <> Os.resolve (root (Examples.start "glacier" "/data/backup"))
                 (cwd (Examples.start "glacier" "/data/backup")) "history.json") as H2.
  { intros f [->%elem_of_singleton| ->%elem_of_singleton]%elem_of_union;
      vm_compute; discriminate. }
  split; [exact H1|]. split; [exact H2|].
  exact (history_holds_archive_ids Examples.accepting _ _ _ _ _ _ H1 H2).
Defined.

(** Scenario 4 of the specification, with two files. *)
Example history_scenario :
  let w := Examples.start "glacier" "/data/backup" in
  let w' := (run Examples.accepting w).2 in
  (run Examples.accepting w).1 = 0%Z
  /\ String.string_of_list_byte (Os.text w' "history.json")
     = Json.quote +:+ "XYZ0" +:+ Json.quote +:+ Json.quote +:+ "XYZ1" +:+ Json.quote
  /\ Fs.is_file (Os.lookup w' "/data/backup/a.back.7z") = false
  /\ Fs.is_file (Os.lookup w' "/data/backup/b.back.7z") = false.
Proof. cbn zeta. split_and!; vm_compute; reflexivity. Qed.



(** * Further properties of the program *)

Lemma new_records_app w w' rs : records w' = records w ++ rs -> new_records w w' = rs.
Proof. intros H. unfold new_records. rewrite H. apply drop_app_length. Qed.

Lemma new_handles_app w w' hs : handles w' = handles w ++ hs -> new_handles w w' = hs.
Proof. intros H. unfold new_handles. rewrite H. apply drop_app_length. Qed.


(** X1.  Local Cleanup: [remove_backup] never raises and touches neither
    file objects nor AWS.  A regular file at the path is removed, which is
    logged; when there is none (nothing, or a directory) the tree stays as
    it is and an error is logged.  Every path that stands for another
    place finds what it found before. *)
Theorem remove_backup_contract (p : string) (w : world) :
  exists w',
    remove_backup p w = (Ok tt, w')
    /\ handles w' = handles w /\ remote w' = remote w /\ cwd w' = cwd w
    /\ (Fs.is_file (Os.lookup w p) = true ->
          Os.lookup w' p = inl ENOENT
          /\ new_records w w'
             = [(DEBUG, "Trying to remove file " +:+ p);
                (DEBUG, "File " +:+ p +:+ " removed")])
    /\ (Fs.is_file (Os.lookup w p) = false ->
          root w' = root w
          /\ new_records w w'
             = [(DEBUG, "Trying to remove file " +:+ p);
                (ERROR, "File " +:+ p +:+ " not found")])
    /\ (forall q, Os.resolve (root w) (cwd w) q <> Os.resolve (root w) (cwd w) p ->
          Fs.shape_of (Os.lookup w' q) = Fs.shape_of (Os.lookup w q)).
Proof.
  destruct (remove_backup_spec p w) as (w' & Hrun & Hcwd & Hh & Hrem & _ & _ & _ & _ & Hs).
  exists w'. split; [done|]. do 3 (split; [done|]).
  split; [|split]; [| |intros q Hq; by apply (remove_backup_frame p w w' q Hrun)].
  - intros Hfile. revert Hrun. unfold remove_backup, Os.isfile, Os.remove. unfold_monad. cbn.
    rewrite lookup_add_records, Hfile. cbn. unfold Os.lookup in *.
    destruct (Os.resolve (root w) (cwd w) p) as [e|cs] eqn:Hres; [done|].
    destruct (Fs.walk (Dir (root w)) cs) as [e|[d|es]] eqn:Hw; try done. cbn.
    intros [= <-]. cbn. split.
    + assert (cs <> []) as Hne by (by intros ->).
      assert (Fs.same_dirs (Dir (root w)) (Dir (Fs.update (fun _ => None) cs (root w)))) as Hs'.
      { rewrite <- modify_dir. apply same_dirs_modify; [by rewrite Hw|done]. }
      rewrite (resolve_same_dirs _ _ _ _ _ Hs' Hres).
      by rewrite <- modify_dir, (walk_modify_same _ _ _ _ Hne Hw).
    + apply new_records_app. cbn. by rewrite <- (assoc_L (++)).
  - intros Hfile. revert Hrun. unfold remove_backup, Os.isfile. unfold_monad. cbn.
    rewrite lookup_add_records, Hfile. intros [= <-]. split; [done|].
    apply new_records_app. cbn. by rewrite <- (assoc_L (++)).
Qed.

Section Further.

Context (env : environment).

(** X2.  A located path that is a directory stops the Glacier loop: [open]
    raises [IsADirectoryError], which [read_object_data] does not catch;
    no call is made, nothing is logged or changed, and the files after it
    are not processed. *)
Theorem glacier_loop_stops_on_directory
    (vault access secret hist f : string) (rest : list string) (w : world) :
  Fs.shape_of (Os.lookup w f) = Fs.IsDir ->
  for_each (f :: rest) (glacier_step env vault access secret hist) w
  = (Raise (IsADirectoryError f), w).
Proof.
  intros Hdir. cbn [for_each]. unfold mbind at 1. unfold M_bind at 1.
  unfold glacier_step. unfold mbind at 1. unfold M_bind at 1.
  rewrite upload_to_glacier_str.
  destruct (Os.lookup w f) as [e|[d|es]]; done.
Qed.

(** X3.  A located file that is no longer there is skipped: the upload
    returns [None], one error is logged, no call is made, no file object
    is opened, and the loop goes on with the next file. *)
Theorem glacier_loop_skips_missing_file
    (vault access secret hist f : string) (rest : list string) (w : world) :
  Os.lookup w f = inl ENOENT ->
  upload_to_glacier env access secret vault (SStr f) w
  = (Ok None, add_records [(ERROR, "Can't open src_data")] w)
  /\ for_each (f :: rest) (glacier_step env vault access secret hist) w
     = for_each rest (glacier_step env vault access secret hist)
         (add_records [(ERROR, "Can't open src_data")] w).
Proof.
  intros Hf. assert (upload_to_glacier env access secret vault (SStr f) w
    = (Ok None, add_records [(ERROR, "Can't open src_data")] w)) as Hup.
  { by rewrite upload_to_glacier_str, Hf. }
  split; [done|]. cbn [for_each]. unfold mbind at 1. unfold M_bind at 1.
  unfold glacier_step. unfold mbind at 1. unfold M_bind at 1. by rewrite Hup.
Qed.

(** X4.  Bytes given directly: empty bytes are skipped without a call and
    without a log record; for other bytes exactly one call is made, with
    the bytes as body and as description, and no file object is opened. *)
Theorem glacier_bytes_upload (access secret vault : string) (b : list Byte.byte)
    (w : world) :
  let r := upload_to_glacier env access secret vault (SBytes b) w in
  (b = [] -> r = (Ok None, w))
  /\ (b <> [] ->
        exists out,
          new_calls w r.2
          = [GlacierCall {| g_access := access; g_secret := secret; vaultName := vault;
                            archiveDescription := SBytes b; body := b |} out]
          /\ out = upload_archive env (remote w)
                     {| g_access := access; g_secret := secret; vaultName := vault;
                        archiveDescription := SBytes b; body := b |}
          /\ handles r.2 = handles w
          /\ forall a, out = Ok a -> r = (Ok (Some a), add_call (GlacierCall
                          {| g_access := access; g_secret := secret; vaultName := vault;
                             archiveDescription := SBytes b; body := b |} (Ok a)) w)).
Proof.
  cbn zeta. unfold upload_to_glacier, read_object_data, glacier_upload_archive.
  unfold_monad. cbn. split.
  - intros ->. done.
  - intros Hb. rewrite bool_decide_eq_false_2 by done. cbn.
    eexists. split; [|split; [reflexivity|]].
    + destruct (upload_archive env (remote w) _) as [a|e]; cbn.
      * by apply new_calls_app.
      * destruct (is_ClientError e); cbn; by apply new_calls_app.
    + destruct (upload_archive env (remote w) _) as [a|e]; cbn.
      * split; [done|]. by intros ? [= <-].
      * destruct (is_ClientError e); cbn; split; done.
Qed.

(** X5.  A successful archive upload of a file: the description sent is
    the path itself and the body the bytes of the file; the response is
    returned as it came, the file object is closed, nothing is logged and
    the tree is untouched. *)
Theorem glacier_success_returns_response
    (access secret vault p : string) (d : list Byte.byte) (a : response) (w : world) :
  Os.lookup w p = inr (File d) ->
  upload_archive env (remote w)
    {| g_access := access; g_secret := secret; vaultName := vault;
       archiveDescription := SStr p; body := d |} = Ok a ->
  exists w',
    upload_to_glacier env access secret vault (SStr p) w = (Ok (Some a), w')
    /\ new_calls w w'
       = [GlacierCall {| g_access := access; g_secret := secret; vaultName := vault;
                         archiveDescription := SStr p; body := d |} (Ok a)]
    /\ new_handles w w' = [{| fo_name := p; fo_data := d; fo_closed := true |}]
    /\ records w' = records w
    /\ root w' = root w.
Proof.
  intros Hf Hout. rewrite upload_to_glacier_str, Hf. cbn zeta.
  unfold glacier_request_for. rewrite Hout. eexists. split; [done|].
  split; [by apply new_calls_app|]. split; [by apply new_handles_app|]. done.
Qed.

(** X6.  Archive-vault mode, one located regular file: after its turn of
    the loop the file is gone exactly when the upload returned a response
    with a true truth value; in every other case (a service error, an
    empty response, any other exception) the tree is as it was. *)
Theorem archive_vault_deletes_iff_success
    (vault access secret hist f : string) (d : list Byte.byte) (w : world) :
  Os.lookup w f = inr (File d) ->
  Os.appendable w hist ->
  let out := upload_archive env (remote w) (glacier_request_for access secret vault f d) in
  let w' := (glacier_step env vault access secret hist f w).2 in
  (Fs.is_file (Os.lookup w' f) = false
   <-> exists a, out = Ok a /\ dict_truthy a = true)
  /\ ((forall a, out = Ok a -> dict_truthy a = false) -> root w' = root w).
Proof.
  intros Hf Happ. cbn zeta. split.
  { by apply glacier_step_deletes_iff. }
  intros Hfail. unfold glacier_step. unfold mbind at 1. unfold M_bind at 1.
  rewrite upload_to_glacier_str, Hf. cbn zeta.
  destruct (upload_archive env (remote w) _) as [a|e] eqn:Hout.
  - rewrite (Hfail a eq_refl). done.
  - by destruct e.
Qed.

(** X7.  The History Recorder on any response: when the history file can
    be opened for appending, the JSON text of the archive id is added at
    its end and nothing else changes (no log record, no call, no file
    object, every path that stands for another place finds what it found
    before); when it cannot, the exception of [open] escapes and the
    world is as it was.  The text added is the id between two double
    quotes when the id is a string of plain characters, and [null] when
    the response holds no id. *)
Theorem save_history_contract (hist : string) (data : response) (w : world) :
  (Os.appendable w hist ->
     exists w',
       save_history hist data w = (Ok tt, w')
       /\ Os.text w' hist = Os.text w hist ++ history_entry data
       /\ records w' = records w /\ remote w' = remote w /\ handles w' = handles w
       /\ (forall q, Os.resolve (root w) (cwd w) q <> Os.resolve (root w) (cwd w) hist ->
             Fs.shape_of (Os.lookup w' q) = Fs.shape_of (Os.lookup w q)))
  /\ (~ Os.appendable w hist ->
        exists e, save_history hist data w = (Raise e, w)
                  /\ (e = FileNotFoundError hist \/ e = NotADirectoryError hist
                      \/ e = IsADirectoryError hist))
  /\ (forall id, data !! "archiveId" = Some (PStr id) -> plain id ->
        history_entry data
        = String.list_byte_of_string (Json.quote +:+ id +:+ Json.quote))
  /\ (data !! "archiveId" = None ->
        history_entry data = String.list_byte_of_string "null").
Proof.
  split; [|split; [|split]]; cycle 2.
  { intros id Hid Hplain. unfold history_entry, dict_get. rewrite Hid. cbn [Json.dumps].
    by rewrite (escape_plain id Hplain). }
  { intros Hid. unfold history_entry, dict_get. by rewrite Hid. }
  - intros Happ. unfold save_history, history_entry.
    destruct (append_text_spec hist (Json.dumps (dict_get data "archiveId")) w Happ)
      as (w' & Hrun & Hcwd & Hh & Hrem & Hrec & _ & Htext & _ & Hframe & Hs).
    exists w'. do 5 (split; [done|]). intros q Hq.
    by apply (append_text_keeps hist _ w w' q Happ Hrun).
  - unfold Os.appendable, save_history, Os.append_text. cbn zeta.
    destruct (Os.follow (root w) (cwd w) hist) as [e|cs].
    { intros _. destruct e; cbn; eauto 6. }
    destruct (Str.endswith hist "/"); [eauto 6|].
    destruct (Fs.walk (Dir (root w)) cs) as [e|[d|es]] eqn:Hw.
    + intros H. exfalso. by apply H.
    + intros H. exfalso. by apply H.
    + eauto 6.
Qed.

(** X8.  The Locator only reads: whatever the directory and the suffix,
    [find_backup] leaves the tree, the file objects and the calls as they
    are and logs debug records only; when it raises, nothing at all has
    changed and the path is not that of a directory. *)
Theorem find_backup_reads_only (D E : string) (w : world) :
  let r := find_backup D E w in
  root r.2 = root w /\ handles r.2 = handles w /\ remote r.2 = remote w
  /\ Forall (fun rec => rec.1 = DEBUG) (new_records w r.2)
  /\ forall e, r.1 = Raise e ->
       r.2 = w /\ Fs.shape_of (Os.lookup w D) <> Fs.IsDir
       /\ (e = FileNotFoundError D \/ e = NotADirectoryError D).
Proof.
  cbn zeta. rewrite find_backup_eq.
  destruct (Os.lookup w D) as [err|[d|es]] eqn:HD; cbn -[new_records].
  - do 3 (split; [done|]). split.
    { unfold new_records. by rewrite drop_all. }
    intros e [= <-]. split; [done|]. split; [done|]. destruct err; cbn; auto.
    by apply lookup_not_eisdir in HD.
  - do 3 (split; [done|]). split.
    { unfold new_records. by rewrite drop_all. }
    intros e [= <-]. auto.
  - do 3 (split; [done|]). split; [|done].
    unfold new_records. cbn. rewrite drop_app_length.
    apply Forall_fmap, Forall_true. done.
Qed.

(** X9.  A backup directory that does not exist, or is not a directory:
    the exception of [os.listdir] escapes [main].  The process ends with
    status 1 having logged [Start] only: no warning, no [Stop], no call. *)
Theorem unreadable_backup_dir_exit_1 (w : world) :
  mode (argv w) = "glacier" \/ mode (argv w) = "s3" ->
  Fs.shape_of (Os.lookup w (backup_dir (argv w))) <> Fs.IsDir ->
  run env w = (1%Z, add_records [(INFO, "Start")] w)
  /\ exists e,
       (main env w).1 = Raise e
       /\ (e = FileNotFoundError (backup_dir (argv w))
           \/ e = NotADirectoryError (backup_dir (argv w))).
Proof.
  intros Hmode Hdir.
  assert (exists e, main env w = (Raise e, add_records [(INFO, "Start")] w)
            /\ (e = FileNotFoundError (backup_dir (argv w))
                \/ e = NotADirectoryError (backup_dir (argv w)))) as (e & Hmain & He).
  { unfold main. unfold mbind at 1. unfold M_bind at 1. unfold log at 1.
    unfold mbind at 1. unfold M_bind at 1.
    rewrite parse_args_ok by done. cbn [argv add_records].
    unfold mbind at 1. unfold M_bind at 1.
    rewrite find_backup_eq, lookup_add_records.
    destruct (Os.lookup w (backup_dir (argv w))) as [err|[d|es]] eqn:HD; [| |done].
    - destruct err; cbn; eauto. by apply lookup_not_eisdir in HD.
    - eauto. }
  split.
  - unfold run. rewrite Hmain. by destruct He as [-> | ->].
  - exists e. by rewrite Hmain.
Qed.

(** X10.  A [--mode] other than the two choices: the argument parser ends
    the process with status 2 right after [Start] is logged; the
    directory is not listed and no call is made. *)
Theorem unknown_mode_exit_2 (w : world) :
  mode (argv w) <> "glacier" -> mode (argv w) <> "s3" ->
  run env w = (2%Z, add_records [(INFO, "Start")] w).
Proof.
  intros H1 H2. unfold run, main. unfold mbind at 1. unfold M_bind at 1. unfold log at 1.
  unfold mbind at 1. unfold M_bind at 1. unfold parse_args. cbn [argv add_records].
  apply String.eqb_neq in H1, H2. by rewrite H1, H2.
Qed.

End Further.

(** X11.  The object name of a located file is its name in the backup
    directory: [basename] undoes the [join] of [find_backup], whatever
    the directory path. *)
Theorem located_file_key_is_entry_name (access secret bucket D name : string) :
  Path.valid_name name ->
  Key (s3_request_for access secret bucket (Path.join D name)) = name.
Proof. intros Hn. unfold s3_request_for. cbn [Key]. by apply basename_join. Qed.

(** * Calls, file objects and whole runs *)

Lemma append_text_frame p t w :
  remote (Os.append_text p t w).2 = remote w
  /\ handles (Os.append_text p t w).2 = handles w
  /\ cwd (Os.append_text p t w).2 = cwd w
  /\ records (Os.append_text p t w).2 = records w.
Proof.
  unfold Os.append_text. cbn zeta.
  destruct (Os.follow (root w) (cwd w) p) as [e|cs]; [done|].
  destruct (Str.endswith p "/"); [done|].
  by destruct (Fs.walk (Dir (root w)) cs) as [e|[d|es]].
Qed.

Lemma set_order_NoDup (env : environment) (X : gset string) : NoDup (set_order env X).
Proof. rewrite (set_order_perm env X). apply NoDup_elements. Qed.

Lemma set_order_length (env : environment) (X : gset string) :
  List.length (set_order env X) = size X.
Proof. by rewrite (set_order_perm env X). Qed.

Lemma elem_of_set_order (env : environment) (X : gset string) p :
  p ∈ set_order env X <-> p ∈ X.
Proof. rewrite (set_order_perm env X). apply elem_of_elements. Qed.

Section Loops.

Context (env : environment).

(** One turn of the bucket loop makes one call, whatever comes back. *)
Lemma s3_step_call bucket access secret p w :
  exists r w' out,
    s3_step env bucket access secret p w = (r, w')
    /\ remote w' = remote w ++ [S3Call (s3_request_for access secret bucket p) out]
    /\ handles w' = handles w.
Proof.
  unfold s3_step, upload_to_s3, s3_upload_file. fold (s3_request_for access secret bucket p).
  unfold mbind at 1. unfold M_bind at 1. unfold try_except.
  set (req := s3_request_for access secret bucket p).
  destruct (upload_file env (remote w) req) as [[]|e] eqn:Hout.
  - unfold mbind at 1. unfold M_bind at 1. unfold log at 1.
    match goal with |- context [remove_backup p ?w0] =>
      destruct (remove_backup_spec p w0) as (w3 & Hrm & _ & Hh & Hrem & _) end.
    rewrite Hrm. exists (Ok tt), w3, (Ok tt). by rewrite Hh, Hrem.
  - destruct (is_ClientError e) eqn:He.
    + unfold_monad. cbn.
      match goal with |- context [remove_backup p ?w0] =>
        destruct (remove_backup_spec p w0) as (w3 & Hrm & _ & Hh & Hrem & _) end.
      rewrite Hrm. exists (Ok tt), w3, (Raise e). by rewrite Hh, Hrem.
    + by exists (Raise e), (add_call (S3Call req (Raise e)) w), (Raise e).
Qed.

Lemma s3_loop_calls bucket access secret (l : list string) w :
  exists r w' cs,
    for_each l (s3_step env bucket access secret) w = (r, w')
    /\ remote w' = remote w ++ cs
    /\ handles w' = handles w
    /\ Forall (fun c => is_s3_call c = true) cs
    /\ call_file <$> cs `prefix_of` Some <$> l
    /\ (r = Ok tt -> call_file <$> cs = Some <$> l).
Proof.
  revert w. induction l as [|p l IH]; intros w.
  - exists (Ok tt), w, []. rewrite (right_id_L [] (++)). by split_and!.
  - destruct (s3_step_call bucket access secret p w) as (r1 & w1 & out & Hstep & Hrem1 & Hh1).
    cbn [for_each]. unfold mbind, M_bind. rewrite Hstep.
    destruct r1 as [[]|e].
    + destruct (IH w1) as (r & w2 & cs & Hloop & Hrem2 & Hh2 & Hs3 & Hpre & Hall).
      exists r, w2, (S3Call (s3_request_for access secret bucket p) out :: cs).
      split; [done|]. split. { by rewrite Hrem2, Hrem1, <- (assoc_L (++)). }
      split; [congruence|]. split; [by constructor|].
      split. { rewrite !fmap_cons. by apply prefix_cons. }
      intros Hr. rewrite !fmap_cons. f_equal. by apply Hall.
    + exists (Raise e), w1, [S3Call (s3_request_for access secret bucket p) out].
      split; [done|]. split; [done|]. split; [done|]. split; [by repeat constructor|].
      split; [|done]. rewrite !fmap_cons. apply prefix_cons, prefix_nil.
Qed.

(** One turn of the Glacier loop makes at most one call, for the file of
    the turn, and opens at most one file object, which it closes unless
    the call ends with an exception other than a service error. *)
Lemma glacier_step_call vault access secret hist f w :
  exists r w' cs hs,
    glacier_step env vault access secret hist f w = (r, w')
    /\ remote w' = remote w ++ cs
    /\ handles w' = handles w ++ hs
    /\ (cs = [] \/ exists req out, cs = [GlacierCall req out]
                                  /\ archiveDescription req = SStr f)
    /\ ((forall calls req, service_outcome (upload_archive env calls req)) ->
          Forall (fun fo => fo_closed fo = true) hs).
Proof.
  unfold glacier_step. unfold mbind at 1. unfold M_bind at 1.
  rewrite upload_to_glacier_str.
  destruct (Os.lookup w f) as [e|[d|es]] eqn:Hf.
  - exists (match e with ENOENT => Ok tt | _ => Raise (Os.oserror e f) end),
      (match e with ENOENT => add_records [(ERROR, "Can't open src_data")] w | _ => w end),
      [], [].
    rewrite !(right_id_L [] (++)). destruct e; split_and!; auto.
  - cbn zeta. set (req := glacier_request_for access secret vault f d).
    pose (fo := {| fo_name := f; fo_data := d; fo_closed := true |}).
    destruct (upload_archive env (remote w) req) as [a|e] eqn:Hout.
    + destruct (dict_truthy a) eqn:Ha.
      * unfold save_history. unfold mbind at 1. unfold M_bind at 1.
        match goal with |- context [Os.append_text ?p ?t ?w0] =>
          pose proof (append_text_frame p t w0) as (Hr3 & Hh3 & _);
          destruct (Os.append_text p t w0) as [[[]|e3] w3] end.
        -- unfold mbind at 1. unfold M_bind at 1. unfold log at 1.
           match goal with |- context [remove_backup f ?w0] =>
             destruct (remove_backup_spec f w0) as (w5 & Hrm & _ & Hh5 & Hrem5 & _) end.
           rewrite Hrm. exists (Ok tt), w5, [GlacierCall req (Ok a)], [fo].
           split; [done|]. split; [by rewrite Hrem5|]. split; [by rewrite Hh5|].
           split; [right; by exists req, (Ok a)|]. intros _. by repeat constructor.
        -- exists (Raise e3), w3, [GlacierCall req (Ok a)], [fo].
           split; [done|]. split; [done|]. split; [done|].
           split; [right; by exists req, (Ok a)|]. intros _. by repeat constructor.
      * eexists (Ok tt), _, [GlacierCall req (Ok a)], [fo].
        split; [done|]. split; [done|]. split; [done|].
        split; [right; by exists req, (Ok a)|]. intros _. by repeat constructor.
    + destruct (is_ClientError e) eqn:He.
      * destruct e; try done. eexists _, _, [GlacierCall req _], [fo].
        split; [done|]. split; [done|]. split; [done|].
        split; [right; by eexists req, _|]. intros _. by repeat constructor.
      * exists (Raise e), (add_call (GlacierCall req (Raise e))
                  (set_handles (handles w ++ [{| fo_name := f; fo_data := d; fo_closed := false |}]) w)),
          [GlacierCall req (Raise e)], [{| fo_name := f; fo_data := d; fo_closed := false |}].
        split; [by destruct e|]. split; [done|]. split; [done|].
        split; [right; by eexists req, _|].
        intros Hsvc. specialize (Hsvc (remote w) req). rewrite Hout in Hsvc. by destruct e.
  - exists (Raise (IsADirectoryError f)), w, [], [].
    rewrite !(right_id_L [] (++)). split_and!; auto.
Qed.

Lemma glacier_loop_calls vault access secret hist (l : list string) w :
  exists r w' cs hs,
    for_each l (glacier_step env vault access secret hist) w = (r, w')
    /\ remote w' = remote w ++ cs
    /\ handles w' = handles w ++ hs
    /\ Forall (fun c => is_glacier_call c = true) cs
    /\ call_file <$> cs `sublist_of` Some <$> l
    /\ ((forall calls req, service_outcome (upload_archive env calls req)) ->
          Forall (fun fo => fo_closed fo = true) hs).
Proof.
  revert w. induction l as [|f l IH]; intros w.
  - exists (Ok tt), w, [], []. rewrite !(right_id_L [] (++)). by split_and!.
  - destruct (glacier_step_call vault access secret hist f w)
      as (r1 & w1 & cs1 & hs1 & Hstep & Hrem1 & Hh1 & Hcs1 & Hcl1).
    assert (Forall (fun c => is_glacier_call c = true) cs1
            /\ call_file <$> cs1 `sublist_of` [Some f]) as [Hg1 Hsub1].
    { destruct Hcs1 as [->|(req & out & -> & Hd)].
      - split; [done|]. apply sublist_nil_l.
      - split; [by repeat constructor|]. cbn. by rewrite Hd. }
    cbn [for_each]. unfold mbind, M_bind. rewrite Hstep.
    destruct r1 as [[]|e].
    + destruct (IH w1) as (r & w2 & cs & hs & Hloop & Hrem2 & Hh2 & Hg & Hsub & Hcl).
      exists r, w2, (cs1 ++ cs), (hs1 ++ hs).
      split; [done|]. split. { by rewrite Hrem2, Hrem1, (assoc_L (++)). }
      split. { by rewrite Hh2, Hh1, (assoc_L (++)). }
      split; [by apply Forall_app|].
      split. { rewrite fmap_app, fmap_cons. by apply (sublist_app _ [Some f]). }
      intros Hsvc. apply Forall_app; auto.
    + exists (Raise e), w1, cs1, hs1.
      split; [done|]. split; [done|]. split; [done|]. split; [done|].
      split; [|done]. rewrite fmap_cons.
      etrans; [exact Hsub1|]. apply (sublist_app [Some f] [Some f] [] (Some <$> l)); [done|].
      apply sublist_nil_l.
Qed.

(** [main] once the command line is read and the directory listed: the
    loop of the chosen backend over the located set, then [shutdown(0)]. *)
Lemma main_upload_phase w X :
  mode (argv w) = "glacier" \/ mode (argv w) = "s3" ->
  (find_backup (backup_dir (argv w)) (backup_ext (argv w)) w).1 = Ok X ->
  X <> ∅ ->
  exists w1,
    remote w1 = remote w /\ handles w1 = handles w /\ cwd w1 = cwd w /\ root w1 = root w
    /\ main env w
       = match (if String.eqb (mode (argv w)) "glacier"
                then upload_list_to_glacier env (vault_name (argv w)) (access_key (argv w))
                       (secret_key (argv w)) X (history_file (argv w))
                else upload_list_to_s3 env (bucket_name (argv w)) (access_key (argv w))
                       (secret_key (argv w)) X) w1 with
         | (Ok _, w2) => (Raise (SystemExit 0), add_records [(INFO, "Stop")] w2)
         | (Raise e, w2) => (Raise e, w2)
         end.
Proof.
  intros Hmode HX Hne. rewrite find_backup_eq in HX.
  unfold main. unfold mbind at 1. unfold M_bind at 1. unfold log at 1.
  unfold mbind at 1. unfold M_bind at 1.
  rewrite parse_args_ok by done. cbn [argv add_records].
  unfold mbind at 1. unfold M_bind at 1.
  rewrite find_backup_eq, lookup_add_records.
  destruct (Os.lookup w (backup_dir (argv w))) as [e|[d|es]]; try done.
  cbn zeta in *. simpl in HX. injection HX as HX. rewrite HX.
  rewrite bool_decide_eq_false_2 by done.
  unfold mbind at 1. unfold M_bind at 1. unfold mret at 1. unfold M_ret at 1.
  unfold mbind at 1. unfold M_bind at 1.
  exists (add_records
            (added_record (backup_dir (argv w)) <$>
               filter (fun f => selected (backup_ext (argv w)) f = true) (Fs.names es))
            (add_records [(INFO, "Start")] w)).
  do 4 (split; [done|]).
  destruct (String.eqb (mode (argv w)) "glacier").
  - destruct (upload_list_to_glacier env _ _ _ X _ _) as [[[]|?] ?]; reflexivity.
  - destruct (upload_list_to_s3 env _ _ _ X _) as [[[]|?] ?]; reflexivity.
Qed.

(** [main] makes no call and opens no file before the upload phase; when
    it stops earlier, it has made none at all. *)
Lemma main_phases w :
  (remote (main env w).2 = remote w /\ handles (main env w).2 = handles w)
  \/ exists X w1,
       remote w1 = remote w /\ handles w1 = handles w
       /\ (mode (argv w) = "glacier" \/ mode (argv w) = "s3")
       /\ let r := (if String.eqb (mode (argv w)) "glacier"
                    then upload_list_to_glacier env (vault_name (argv w))
                           (access_key (argv w)) (secret_key (argv w)) X
                           (history_file (argv w))
                    else upload_list_to_s3 env (bucket_name (argv w))
                           (access_key (argv w)) (secret_key (argv w)) X) w1 in
          remote (main env w).2 = remote r.2 /\ handles (main env w).2 = handles r.2.
Proof.
  destruct (decide (mode (argv w) = "glacier" \/ mode (argv w) = "s3")) as [Hmode|Hmode].
  2:{ left.
      assert (exists r w', main env w = (r, w')
                /\ remote w' = remote w /\ handles w' = handles w)
        as (r & w' & -> & ? & ?); [|done].
      unfold main. unfold mbind at 1. unfold M_bind at 1. unfold log at 1.
      unfold mbind at 1. unfold M_bind at 1. unfold parse_args. cbn [argv add_records].
      destruct (String.eqb_spec (mode (argv w)) "glacier"); [tauto|].
      destruct (String.eqb_spec (mode (argv w)) "s3"); [tauto|]. by eexists _, _. }
  destruct ((find_backup (backup_dir (argv w)) (backup_ext (argv w)) w).1) as [X|e] eqn:HX.
  - destruct (decide (X = ∅)) as [->|Hne].
    + left.
      assert (exists r w', main env w = (r, w')
                /\ remote w' = remote w /\ handles w' = handles w)
        as (r & w' & -> & ? & ?); [|done].
      unfold main. unfold mbind at 1. unfold M_bind at 1. unfold log at 1.
      unfold mbind at 1. unfold M_bind at 1.
      rewrite parse_args_ok by done. cbn [argv add_records].
      unfold mbind at 1. unfold M_bind at 1.
      rewrite find_backup_eq in HX. rewrite find_backup_eq, lookup_add_records.
      destruct (Os.lookup w (backup_dir (argv w))) as [e|[d|es]]; try done.
      cbn zeta in *. simpl in HX. injection HX as HX. rewrite HX.
      unfold_monad. cbn. by eexists _, _.
    + right. destruct (main_upload_phase w X Hmode HX Hne)
        as (w1 & Hr1 & Hh1 & _ & _ & Hmain).
      exists X, w1. split; [done|]. split; [done|]. split; [done|]. cbn zeta.
      rewrite Hmain.
      destruct (String.eqb (mode (argv w)) "glacier").
      * destruct (upload_list_to_glacier env _ _ _ X _ w1) as [[[]|?] ?]; done.
      * destruct (upload_list_to_s3 env _ _ _ X w1) as [[[]|?] ?]; done.
  - left.
    assert (exists r w', main env w = (r, w')
              /\ remote w' = remote w /\ handles w' = handles w)
      as (r & w' & -> & ? & ?); [|done].
    unfold main. unfold mbind at 1. unfold M_bind at 1. unfold log at 1.
    unfold mbind at 1. unfold M_bind at 1.
    rewrite parse_args_ok by done. cbn [argv add_records].
    unfold mbind at 1. unfold M_bind at 1.
    rewrite find_backup_eq in HX. rewrite find_backup_eq, lookup_add_records.
    destruct (Os.lookup w (backup_dir (argv w))) as [e'|[d|es]]; try done;
      by eexists _, _.
Qed.

(** X12.  No retry and no stray call: the calls of the bucket loop are
    S3 calls for the files of the set, one for each file reached, in the
    order of the loop; the calls of the Glacier loop are Glacier calls
    for files of the set, in the order of the loop, at most one a file.
    Neither loop makes more calls than the set has files. *)
Theorem calls_follow_the_file_set
    (bucket vault access secret hist : string) (X : gset string) (w : world) :
  let ws := (upload_list_to_s3 env bucket access secret X w).2 in
  let wg := (upload_list_to_glacier env vault access secret X hist w).2 in
  NoDup (set_order env X)
  /\ Forall (fun c => is_s3_call c = true) (new_calls w ws)
  /\ call_file <$> new_calls w ws `prefix_of` Some <$> set_order env X
  /\ (List.length (new_calls w ws) <= size X)%nat
  /\ Forall (fun c => is_glacier_call c = true) (new_calls w wg)
  /\ call_file <$> new_calls w wg `sublist_of` Some <$> set_order env X
  /\ (List.length (new_calls w wg) <= size X)%nat.
Proof.
  cbn zeta. unfold upload_list_to_s3, upload_list_to_glacier.
  destruct (s3_loop_calls bucket access secret (set_order env X) w)
    as (r & ws & cs & Hrun & Hrem & _ & Hs3 & Hpre & _).
  destruct (glacier_loop_calls vault access secret hist (set_order env X) w)
    as (r' & wg & cs' & hs & Hrun' & Hrem' & _ & Hg & Hsub & _).
  rewrite Hrun, Hrun'. cbn [snd].
  rewrite (new_calls_app _ _ _ Hrem), (new_calls_app _ _ _ Hrem').
  split; [apply set_order_NoDup|]. split; [done|]. split; [done|].
  split. { apply prefix_length in Hpre. rewrite !length_fmap, set_order_length in Hpre. done. }
  split; [done|]. split; [done|].
  apply sublist_length in Hsub. by rewrite !length_fmap, set_order_length in Hsub.
Qed.

(** X13.  A run talks to one backend only: every call it makes is a
    Glacier call when the mode is [glacier], an S3 call otherwise. *)
Theorem run_uses_one_backend (w : world) :
  Forall (fun c => is_glacier_call c = String.eqb (mode (argv w)) "glacier")
    (new_calls w (run env w).2).
Proof.
  assert ((run env w).2 = (main env w).2) as ->.
  { unfold run. by destruct (main env w). }
  destruct (main_phases w) as [[Hrem _]|(X & w1 & Hr1 & _ & Hmode & Hloop)].
  { unfold new_calls. rewrite Hrem. by rewrite drop_all. }
  cbn zeta in Hloop. destruct Hloop as [Hrem _]. unfold new_calls. rewrite Hrem, <- Hr1.
  destruct (String.eqb (mode (argv w)) "glacier") eqn:Hm.
  - unfold upload_list_to_glacier.
    destruct (glacier_loop_calls (vault_name (argv w)) (access_key (argv w))
                (secret_key (argv w)) (history_file (argv w)) (set_order env X) w1)
      as (r' & wg & cs' & hs & Hrun' & Hrem' & _ & Hg & _).
    rewrite Hrun'. cbn [snd]. rewrite Hrem', drop_app_length. done.
  - unfold upload_list_to_s3.
    destruct (s3_loop_calls (bucket_name (argv w)) (access_key (argv w))
                (secret_key (argv w)) (set_order env X) w1)
      as (r & ws & cs & Hrun & Hrem' & _ & Hs3 & _).
    rewrite Hrun. cbn [snd]. rewrite Hrem', drop_app_length.
    eapply Forall_impl; [exact Hs3|]. by intros [].
Qed.

(** X14.  No file object is left open: when the Glacier service returns
    or reports an error on every call, every file object opened during a
    run is closed at its end, in either mode and also when the run ends
    early. *)
Theorem run_leaves_no_open_file (w : world) :
  (forall calls req, service_outcome (upload_archive env calls req)) ->
  Forall (fun fo => fo_closed fo = true) (new_handles w (run env w).2).
Proof.
  intros Hsvc.
  assert ((run env w).2 = (main env w).2) as ->.
  { unfold run. by destruct (main env w). }
  destruct (main_phases w) as [[_ Hh]|(X & w1 & _ & Hh1 & Hmode & Hloop)].
  { unfold new_handles. rewrite Hh. by rewrite drop_all. }
  cbn zeta in Hloop. destruct Hloop as [_ Hh]. unfold new_handles. rewrite Hh, <- Hh1.
  destruct (String.eqb (mode (argv w)) "glacier") eqn:Hm.
  - unfold upload_list_to_glacier.
    destruct (glacier_loop_calls (vault_name (argv w)) (access_key (argv w))
                (secret_key (argv w)) (history_file (argv w)) (set_order env X) w1)
      as (r' & wg & cs' & hs & Hrun' & _ & Hh' & _ & _ & Hcl).
    rewrite Hrun'. cbn [snd]. rewrite Hh', drop_app_length. by apply Hcl.
  - unfold upload_list_to_s3.
    destruct (s3_loop_calls (bucket_name (argv w)) (access_key (argv w))
                (secret_key (argv w)) (set_order env X) w1)
      as (r & ws & cs & Hrun & _ & Hh' & _).
    rewrite Hrun. cbn [snd]. rewrite Hh'. by rewrite drop_all.
Qed.

(** X15.  A bucket-mode run over a non-empty located set, with a service
    that returns or reports an error on every call: every located file is
    tried once, in the order of the loop, no regular file is left at any
    located path, and the process ends with status 0 after logging
    [Stop]. *)
Theorem bucket_run_completes (w : world) (X : gset string) :
  mode (argv w) = "s3" ->
  (forall calls req, service_outcome (upload_file env calls req)) ->
  (find_backup (backup_dir (argv w)) (backup_ext (argv w)) w).1 = Ok X ->
  X <> ∅ ->
  exists w',
    run env w = (0%Z, w')
    /\ call_file <$> new_calls w w' = Some <$> set_order env X
    /\ (forall p, p ∈ X -> Fs.is_file (Os.lookup w' p) = false)
    /\ last (records w') = Some (INFO, "Stop").
Proof.
  intros Hmode Hsvc HX Hne.
  destruct (main_upload_phase w X (or_intror Hmode) HX Hne)
    as (w1 & Hr1 & _ & _ & _ & Hmain).
  rewrite Hmode in Hmain. cbn [String.eqb Ascii.eqb Bool.eqb] in Hmain.
  unfold upload_list_to_s3 in Hmain.
  destruct (s3_loop_spec env (bucket_name (argv w)) (access_key (argv w))
              (secret_key (argv w)) (set_order env X) w1 Hsvc)
    as (w2 & cs & Hrun & _ & Hrem & _ & Hall).
  destruct (s3_loop_calls (bucket_name (argv w)) (access_key (argv w))
              (secret_key (argv w)) (set_order env X) w1)
    as (r & w2' & cs' & Hrun' & Hrem' & _ & _ & _ & Hfiles).
  rewrite Hrun in Hrun'. injection Hrun' as <- <-.
  rewrite Hrun in Hmain.
  exists (add_records [(INFO, "Stop")] w2). split.
  { unfold run. by rewrite Hmain. }
  split.
  { unfold new_calls. cbn [remote add_records]. rewrite Hrem', Hr1, drop_app_length.
    by apply Hfiles. }
  split.
  { intros p Hp. rewrite lookup_add_records. apply Hall. by apply elem_of_set_order. }
  cbn [records add_records]. by rewrite last_snoc.
Qed.

(** One turn of the Glacier loop when everything works. *)
Lemma glacier_step_success vault access secret hist f d w :
  (forall calls req, exists a, upload_archive env calls req = Ok a /\ dict_truthy a = true) ->
  Os.lookup w f = inr (File d) ->
  Os.appendable w hist ->
  Os.resolve (root w) (cwd w) f <> Os.resolve (root w) (cwd w) hist ->
  exists w' a,
    glacier_step env vault access secret hist f w = (Ok tt, w')
    /\ cwd w' = cwd w
    /\ remote w' = remote w ++ [GlacierCall (glacier_request_for access secret vault f d) (Ok a)]
    /\ dict_truthy a = true
    /\ Os.appendable w' hist
    /\ Fs.is_file (Os.lookup w' f) = false
    /\ (forall q, Os.resolve (root w) (cwd w) q <> Os.resolve (root w) (cwd w) f ->
          Os.resolve (root w) (cwd w) q <> Os.resolve (root w) (cwd w) hist ->
          Fs.shape_of (Os.lookup w' q) = Fs.shape_of (Os.lookup w q))
    /\ Fs.same_dirs (Dir (root w)) (Dir (root w')).
Proof.
  intros Hsvc Hf Happ Hne.
  destruct (glacier_step_cases env vault access secret hist f d w Hf Happ Hne)
    as (r & w' & Hstep & Hcwd & Hrem & Happ' & Hs & Hframe & Hcase).
  destruct (Hsvc (remote w) (glacier_request_for access secret vault f d))
    as (a & Hout & Ha).
  rewrite Hout in Hcase, Hrem. destruct Hcase as [-> Hgone]. rewrite Ha in Hgone.
  exists w', a. by split_and!.
Qed.

Lemma successes_cons_ok req a cs :
  dict_truthy a = true -> successes (GlacierCall req (Ok a) :: cs) = a :: successes cs.
Proof. intros Ha. unfold successes. cbn. by rewrite Ha. Qed.

Lemma glacier_loop_success vault access secret hist (l : list string) w :
  (forall calls req, exists a, upload_archive env calls req = Ok a /\ dict_truthy a = true) ->
  Os.appendable w hist ->
  (forall f, f ∈ l ->
     Fs.is_file (Os.lookup w f) = true
     /\ Os.resolve (root w) (cwd w) f <> Os.resolve (root w) (cwd w) hist) ->
  NoDup (Os.resolve (root w) (cwd w) <$> l) ->
  exists w' cs,
    for_each l (glacier_step env vault access secret hist) w = (Ok tt, w')
    /\ cwd w' = cwd w
    /\ remote w' = remote w ++ cs
    /\ call_file <$> cs = Some <$> l
    /\ List.length (successes cs) = List.length l
    /\ (forall f, f ∈ l -> Fs.is_file (Os.lookup w' f) = false)
    /\ (forall q,
          (forall f, f ∈ l ->
             Os.resolve (root w) (cwd w) q <> Os.resolve (root w) (cwd w) f) ->
          Os.resolve (root w) (cwd w) q <> Os.resolve (root w) (cwd w) hist ->
          Fs.shape_of (Os.lookup w' q) = Fs.shape_of (Os.lookup w q)).
Proof.
  intros Hsvc. revert w. induction l as [|f l IH]; intros w Happ Hl Hnd.
  - exists w, []. rewrite (right_id_L [] (++)). split_and!; try done.
    by intros ? ?%elem_of_nil.
  - rewrite fmap_cons in Hnd. apply NoDup_cons in Hnd as [Hfl Hnd].
    destruct (Hl f) as [Hfile Hfh]; [by left|].
    destruct (Os.lookup w f) as [e|[d|es]] eqn:Hf; try done.
    destruct (lookup_resolves _ _ _ Hf) as (csf & Hcsf).
    destruct (appendable_resolve _ _ Happ) as (csh & Hcsh & _).
    destruct (glacier_step_success vault access secret hist f d w Hsvc Hf Happ Hfh)
      as (w1 & a & Hstep & Hcwd1 & Hrem1 & Ha & Happ1 & Hgone1 & Hframe1 & Hs1).
    assert (forall g, g ∈ l ->
              Os.resolve (root w) (cwd w) g <> Os.resolve (root w) (cwd w) f) as Hdist.
    { intros g Hg Heq. apply Hfl. rewrite <- Heq. by apply list_elem_of_fmap_2. }
    assert (forall g, g ∈ l -> exists csg, Os.resolve (root w) (cwd w) g = inr csg) as Hres.
    { intros g Hg. destruct (Hl g) as [Hgfile _]; [by right|].
      by apply is_file_resolves. }
    assert (forall g q, g ∈ l ->
              Os.resolve (root w) (cwd w) q <> Os.resolve (root w) (cwd w) g ->
              Os.resolve (root w1) (cwd w1) q <> Os.resolve (root w1) (cwd w1) g) as Hmove.
    { intros g q Hg Hqg. destruct (Hres g Hg) as (csg & Hcsg). rewrite Hcwd1.
      by apply (resolve_neq_same_dirs (root w) _ _ _ _ csg). }
    assert (forall q,
              Os.resolve (root w) (cwd w) q <> Os.resolve (root w) (cwd w) hist ->
              Os.resolve (root w1) (cwd w1) q <> Os.resolve (root w1) (cwd w1) hist) as Hmoveh.
    { intros q Hqh. rewrite Hcwd1.
      by apply (resolve_neq_same_dirs (root w) _ _ _ _ csh). }
    destruct (IH w1) as (w2 & cs & Hloop & Hcwd2 & Hrem2 & Hfiles & Hlen & Hgone2 & Hframe2).
    { done. }
    { intros g Hg. destruct (Hl g) as [Hgfile Hgh]; [by right|]. split.
      - by rewrite is_file_of_shape, (Hframe1 g (Hdist g Hg) Hgh), <- is_file_of_shape.
      - by apply Hmoveh. }
    { assert (Os.resolve (root w1) (cwd w1) <$> l
              = Os.resolve (root w) (cwd w) <$> l) as ->; [|done].
      apply Forall_fmap_ext, Forall_forall. intros g Hg.
      destruct (Hres g Hg) as (csg & Hcsg).
      by rewrite Hcwd1, Hcsg, (resolve_same_dirs _ _ _ _ _ Hs1 Hcsg). }
    exists w2, (GlacierCall (glacier_request_for access secret vault f d) (Ok a) :: cs).
    split. { cbn [for_each]. unfold mbind, M_bind. by rewrite Hstep. }
    split; [congruence|].
    split. { by rewrite Hrem2, Hrem1, <- (assoc_L (++)). }
    split. { rewrite !fmap_cons. by rewrite Hfiles. }
    split. { rewrite successes_cons_ok by done. cbn. by rewrite Hlen. }
    split.
    + intros g [->|Hg]%elem_of_cons; [|by apply Hgone2].
      rewrite is_file_of_shape, Hframe2, <- is_file_of_shape; [done| |by apply Hmoveh].
      intros g Hg. apply (Hmove g f Hg). intros Heq. by apply (Hdist g Hg).
    + intros q Hq Hqh. rewrite Hframe2.
      * apply Hframe1; [apply Hq; by left|done].
      * intros g Hg. apply (Hmove g q Hg). apply Hq. by right.
      * by apply Hmoveh.
Qed.

(** X16.  The Glacier loop when everything works: the service accepts
    every upload, the history file can be written, and the set holds
    regular files at different places, none of them the history file.
    Then the loop returns, every file of the set is uploaded once, in the
    order of the loop, each upload is recorded, and no regular file is
    left at any path of the set. *)
Theorem glacier_list_all_uploaded
    (vault access secret hist : string) (X : gset string) (w : world) :
  (forall calls req, exists a, upload_archive env calls req = Ok a /\ dict_truthy a = true) ->
  Os.appendable w hist ->
  (forall f, f ∈ X ->
     Fs.is_file (Os.lookup w f) = true
     /\ Os.resolve (root w) (cwd w) f <> Os.resolve (root w) (cwd w) hist) ->
  (forall f g, f ∈ X -> g ∈ X ->
     Os.resolve (root w) (cwd w) f = Os.resolve (root w) (cwd w) g -> f = g) ->
  exists w',
    upload_list_to_glacier env vault access secret X hist w = (Ok tt, w')
    /\ call_file <$> new_calls w w' = Some <$> set_order env X
    /\ List.length (successes (new_calls w w')) = size X
    /\ (forall f, f ∈ X -> Fs.is_file (Os.lookup w' f) = false).
Proof.
  intros Hsvc Happ HX Hinj. unfold upload_list_to_glacier.
  destruct (glacier_loop_success vault access secret hist (set_order env X) w Hsvc Happ)
    as (w' & cs & Hrun & _ & Hrem & Hfiles & Hlen & Hgone & _).
  { intros f Hf. apply HX. by apply (elem_of_set_order env X f). }
  { apply NoDup_fmap_2_strong; [|apply set_order_NoDup].
    intros f g Hf Hg. apply Hinj; by apply (elem_of_set_order env X). }
  exists w'. split; [done|]. rewrite (new_calls_app _ _ _ Hrem).
  split; [done|]. split; [by rewrite Hlen, set_order_length|].
  intros f Hf. apply Hgone. by apply elem_of_set_order.
Qed.

End Loops.

(** * The further properties on the example worlds *)

(** X2 on the directory [/data/backup/old]. *)
Lemma glacier_loop_stops_on_directory_witness :
  let w := Examples.start "glacier" "/data/backup" in
  Fs.shape_of (Os.lookup w "/data/backup/old") = Fs.IsDir
  /\ for_each ("/data/backup/old" :: ["/data/backup/a.back.7z"])
       (glacier_step Examples.accepting "some Glacier vault" "Z123456" "A123456"
          "history.json") w
     = (Raise (IsADirectoryError "/data/backup/old"), w).
Proof.
  cbn zeta.
  assert (Fs.shape_of (Os.lookup (Examples.start "glacier" "/data/backup") "/data/backup/old")
          = Fs.IsDir) as H1.
  { vm_compute. reflexivity. }
  split; [exact H1|].
  exact (glacier_loop_stops_on_directory Examples.accepting _ _ _ _ _ _ _ H1).
Defined.

(** X3 on a path where nothing is. *)
Lemma glacier_loop_skips_missing_file_witness :
  let w := Examples.start "glacier" "/data/backup" in
  let f := "/data/backup/gone.back.7z" in
  Os.lookup w f = inl ENOENT
  /\ upload_to_glacier Examples.accepting "Z123456" "A123456" "some Glacier vault" (SStr f) w
     = (Ok None, add_records [(ERROR, "Can't open src_data")] w)
  /\ for_each (f :: ["/data/backup/a.back.7z"])
       (glacier_step Examples.accepting "some Glacier vault" "Z123456" "A123456"
          "history.json") w
     = for_each ["/data/backup/a.back.7z"]
         (glacier_step Examples.accepting "some Glacier vault" "Z123456" "A123456"
            "history.json")
         (add_records [(ERROR, "Can't open src_data")] w).
Proof.
  cbn zeta.
  assert (Os.lookup (Examples.start "glacier" "/data/backup") "/data/backup/gone.back.7z"
          = inl ENOENT) as H1.
  { vm_compute. reflexivity. }
  split; [exact H1|].
  exact (glacier_loop_skips_missing_file Examples.accepting _ _ _ "history.json" _
           ["/data/backup/a.back.7z"] _ H1).
Defined.

(** X5 with a service that accepts the first upload. *)
Lemma glacier_success_returns_response_witness :
  let w := Examples.start "glacier" "/data/backup" in
  let p := "/data/backup/a.back.7z" in
  let d := String.list_byte_of_string "AAAA" in
  let a : response := {[ "archiveId" := PStr "XYZ" ]} in
  Os.lookup w p = inr (File d)
  /\ upload_archive Examples.first_only (remote w)
       {| g_access := "Z123456"; g_secret := "A123456"; vaultName := "some Glacier vault";
          archiveDescription := SStr p; body := d |} = Ok a
  /\ exists w',
    upload_to_glacier Examples.first_only "Z123456" "A123456" "some Glacier vault" (SStr p) w
    = (Ok (Some a), w')
    /\ new_calls w w'
       = [GlacierCall {| g_access := "Z123456"; g_secret := "A123456";
                         vaultName := "some Glacier vault";
                         archiveDescription := SStr p; body := d |} (Ok a)]
    /\ new_handles w w' = [{| fo_name := p; fo_data := d; fo_closed := true |}]
    /\ records w' = records w
    /\ root w' = root w.
Proof.
  cbn zeta.
  assert (Os.lookup (Examples.start "glacier" "/data/backup") "/data/backup/a.back.7z"
          = inr (File (String.list_byte_of_string "AAAA"))) as H1.
  { vm_compute. reflexivity. }
  assert (upload_archive Examples.first_only
            (remote (Examples.start "glacier" "/data/backup"))
            {| g_access := "Z123456"; g_secret := "A123456";
               vaultName := "some Glacier vault";
               archiveDescription := SStr "/data/backup/a.back.7z";
               body := String.list_byte_of_string "AAAA" |}
          = Ok ({[ "archiveId" := PStr "XYZ" ]} : response)) as H2.
  { reflexivity. }
  split; [exact H1|]. split; [exact H2|].
  exact (glacier_success_returns_response Examples.first_only _ _ _ _ _ _ _ H1 H2).
Defined.

(** X6 with a service that refuses the upload. *)
Lemma archive_vault_deletes_iff_success_witness :
  let w := Examples.start "glacier" "/data/backup" in
  let f := "/data/backup/a.back.7z" in
  let d := String.list_byte_of_string "AAAA" in
  Os.lookup w f = inr (File d)
  /\ Os.appendable w "history.json"
  /\ let out := upload_archive Examples.refusing (remote w)
                  (glacier_request_for "Z123456" "A123456" "some Glacier vault" f d) in
     let w' := (glacier_step Examples.refusing "some Glacier vault" "Z123456" "A123456"
                  "history.json" f w).2 in
     (Fs.is_file (Os.lookup w' f) = false
      <-> exists a, out = Ok a /\ dict_truthy a = true)
     /\ ((forall a, out = Ok a -> dict_truthy a = false) -> root w' = root w).
Proof.
  cbn zeta.
  assert (Os.lookup (Examples.start "glacier" "/data/backup") "/data/backup/a.back.7z"
          = inr (File (String.list_byte_of_string "AAAA"))) as H1.
  { vm_compute. reflexivity. }
  assert (Os.appendable (Examples.start "glacier" "/data/backup") "history.json") as H2.
  { vm_compute. split; [reflexivity|discriminate]. }
  split; [exact H1|]. split; [exact H2|].
  exact (archive_vault_deletes_iff_success Examples.refusing _ _ _ _ _ _ _ H1 H2).
Defined.

(** X9 on a backup directory that does not exist. *)
Lemma unreadable_backup_dir_exit_1_witness :
  let w := Examples.start "glacier" "/data/nothing" in
  (mode (argv w) = "glacier" \/ mode (argv w) = "s3")
  /\ Fs.shape_of (Os.lookup w (backup_dir (argv w))) <> Fs.IsDir
  /\ run Examples.accepting w = (1%Z, add_records [(INFO, "Start")] w)
  /\ exists e,
       (main Examples.accepting w).1 = Raise e
       /\ (e = FileNotFoundError (backup_dir (argv w))
           \/ e = NotADirectoryError (backup_dir (argv w))).
Proof.
  cbn zeta.
  assert (mode (argv (Examples.start "glacier" "/data/nothing")) = "glacier"
          \/ mode (argv (Examples.start "glacier" "/data/nothing")) = "s3") as H1.
  { left. reflexivity. }
  assert (Fs.shape_of (Os.lookup (Examples.start "glacier" "/data/nothing")
                         (backup_dir (argv (Examples.start "glacier" "/data/nothing"))))
          <> Fs.IsDir) as H2.
  { vm_compute. discriminate. }
  split; [exact H1|]. split; [exact H2|].
  exact (unreadable_backup_dir_exit_1 Examples.accepting _ H1 H2).
Defined.

(** X10 with [--mode ftp]. *)
Lemma unknown_mode_exit_2_witness :
  let w := Examples.start "ftp" "/data/backup" in
  mode (argv w) <> "glacier" /\ mode (argv w) <> "s3"
  /\ run Examples.accepting w = (2%Z, add_records [(INFO, "Start")] w).
Proof.
  cbn zeta.
  assert (mode (argv (Examples.start "ftp" "/data/backup")) <> "glacier") as H1.
  { vm_compute. discriminate. }
  assert (mode (argv (Examples.start "ftp" "/data/backup")) <> "s3") as H2.
  { vm_compute. discriminate. }
  split; [exact H1|]. split; [exact H2|].
  exact (unknown_mode_exit_2 Examples.accepting _ H1 H2).
Defined.

(** X11 on a backup in [/data/backup/]. *)
Lemma located_file_key_is_entry_name_witness :
  Path.valid_name "a.back.7z"
  /\ Key (s3_request_for "Z123456" "A123456" "some S3 bucket"
            (Path.join "/data/backup/" "a.back.7z")) = "a.back.7z".
Proof.
  assert (Path.valid_name "a.back.7z") as H1.
  { apply (bool_decide_unpack _). vm_compute. exact I. }
  split; [exact H1|].
  exact (located_file_key_is_entry_name _ _ _ "/data/backup/" _ H1).
Defined.

(** X14 on a Glacier run in which the service refuses the upload. *)
Lemma run_leaves_no_open_file_witness :
  let w := Examples.start "glacier" "/data/backup" in
  (forall calls req, service_outcome (upload_archive Examples.refusing calls req))
  /\ Forall (fun fo => fo_closed fo = true) (new_handles w (run Examples.refusing w).2).
Proof.
  cbn zeta.
  assert (forall calls req, service_outcome (upload_archive Examples.refusing calls req)) as H1.
  { intros calls req. exact I. }
  split; [exact H1|].
  exact (run_leaves_no_open_file Examples.refusing _ H1).
Defined.

(** X15 on a bucket run in which the service accepts the first upload and
    refuses the second. *)
Lemma bucket_run_completes_witness :
  let w := Examples.start "s3" "/data/backup" in
  let X : gset string := {[ "/data/backup/a.back.7z"; "/data/backup/b.back.7z" ]} in
  mode (argv w) = "s3"
  /\ (forall calls req, service_outcome (upload_file Examples.first_only calls req))
  /\ (find_backup (backup_dir (argv w)) (backup_ext (argv w)) w).1 = Ok X
  /\ X <> ∅
  /\ exists w',
    run Examples.first_only w = (0%Z, w')
    /\ call_file <$> new_calls w w' = Some <$> set_order Examples.first_only X
    /\ (forall p, p ∈ X -> Fs.is_file (Os.lookup w' p) = false)
    /\ last (records w') = Some (INFO, "Stop").
Proof.
  cbn zeta.
  assert (mode (argv (Examples.start "s3" "/data/backup")) = "s3") as H1.
  { reflexivity. }
  assert (forall calls req, service_outcome (upload_file Examples.first_only calls req)) as H2.
  { intros [|c calls] req; exact I. }
  assert ((find_backup (backup_dir (argv (Examples.start "s3" "/data/backup")))
             (backup_ext (argv (Examples.start "s3" "/data/backup")))
             (Examples.start "s3" "/data/backup")).1
          = Ok ({[ "/data/backup/a.back.7z"; "/data/backup/b.back.7z" ]} : gset string)) as H3.
  { vm_compute. reflexivity. }
  assert (({[ "/data/backup/a.back.7z"; "/data/backup/b.back.7z" ]} : gset string) <> ∅) as H4.
  { vm_compute. discriminate. }
  split; [exact H1|]. split; [exact H2|]. split; [exact H3|]. split; [exact H4|].
  exact (bucket_run_completes Examples.first_only _ _ H1 H2 H3 H4).
Defined.

(** X16 with a service that accepts every upload. *)
Lemma glacier_list_all_uploaded_witness :
  let w := Examples.start "glacier" "/data/backup" in
  let X : gset string := {[ "/data/backup/a.back.7z"; "/data/backup/b.back.7z" ]} in
  (forall calls req,
     exists a, upload_archive Examples.accepting calls req = Ok a /\ dict_truthy a = true)
  /\ Os.appendable w "history.json"
  /\ (forall f, f ∈ X ->
        Fs.is_file (Os.lookup w f) = true
        /\ Os.resolve (root w) (cwd w) f <> Os.resolve (root w) (cwd w) "history.json")
  /\ (forall f g, f ∈ X -> g ∈ X ->
        Os.resolve (root w) (cwd w) f = Os.resolve (root w) (cwd w) g -> f = g)
  /\ exists w',
    upload_list_to_glacier Examples.accepting "some Glacier vault" "Z123456" "A123456"
      X "history.json" w = (Ok tt, w')
    /\ call_file <$> new_calls w w' = Some <$> set_order Examples.accepting X
    /\ List.length (successes (new_calls w w')) = size X
    /\ (forall f, f ∈ X -> Fs.is_file (Os.lookup w' f) = false).
Proof.
  cbn zeta.
  assert (forall calls req,
            exists a, upload_archive Examples.accepting calls req = Ok a
                      /\ dict_truthy a = true) as H1.
  { intros calls req. eexists. split; [reflexivity|].
    unfold dict_truthy. apply negb_true_iff, bool_decide_eq_false_2, insert_non_empty. }
  assert (Os.appendable (Examples.start "glacier" "/data/backup") "history.json") as H2.
  { vm_compute. split; [reflexivity|discriminate]. }
  assert (forall f, f ∈ ({[ "/data/backup/a.back.7z"; "/data/backup/b.back.7z" ]} : gset string) ->
            Fs.is_file (Os.lookup (Examples.start "glacier" "/data/backup") f) = true
            /\ Os.resolve (root (Examples.start "glacier" "/data/backup"))
                 (cwd (Examples.start "glacier" "/data/backup")) f
               <> Os.resolve (root (Examples.start "glacier" "/data/backup"))
                    (cwd (Examples.start "glacier" "/data/backup")) "history.json") as H3.
  { intros f [->%elem_of_singleton| ->%elem_of_singleton]%elem_of_union;
      (split; [vm_compute; reflexivity|vm_compute; discriminate]). }
  assert (forall f g, f ∈ ({[ "/data/backup/a.back.7z"; "/data/backup/b.back.7z" ]} : gset string) ->
            g ∈ ({[ "/data/backup/a.back.7z"; "/data/backup/b.back.7z" ]} : gset string) ->
            Os.resolve (root (Examples.start "glacier" "/data/backup"))
              (cwd (Examples.start "glacier" "/data/backup")) f
            = Os.resolve (root (Examples.start "glacier" "/data/backup"))
                (cwd (Examples.start "glacier" "/data/backup")) g -> f = g) as H4.
  { intros f g [->%elem_of_singleton| ->%elem_of_singleton]%elem_of_union
      [->%elem_of_singleton| ->%elem_of_singleton]%elem_of_union;
      try reflexivity; vm_compute; discriminate. }
  split; [exact H1|]. split; [exact H2|]. split; [exact H3|]. split; [exact H4|].
  exact (glacier_list_all_uploaded Examples.accepting _ _ _ _ _ _ H1 H2 H3 H4).
Defined.
